(** * A per-identity file store over HTTP: the request handlers of [index.js]

    The development embeds the seven functions exported by [src/index.js]
    ([getContentType], [isValidTargetDir], [setCorsHeaders],
    [isValidAuthorizationHeader], [handleOptions], [handlePut], [handleGet])
    together with the parts of the JavaScript runtime they call, and proves
    the properties of the authorization protocol stated in the specification.

    Conventions of the embedding:
    - a JavaScript string is the list of its UTF-16 code units ([jsstring]);
    - a JavaScript value is a term of [value]; a call that may throw returns
      a [completion];
    - the response object is a record threaded through the handlers;
    - the file system and the signature primitive are collaborators: the file
      system throws at the call on a path that holds the code unit 0, answers
      through a [world] of outcomes on every other path, and every call to it
      is recorded; the signature primitive is a section variable;
    - [console.log] and [console.error] only print and are left out. *)

From Stdlib Require Import ZArith NArith List Bool Lia String Ascii.
From stdpp Require Import base option list gmap.

Set Warnings "-register-all".
Open Scope N_scope.

(** ** Strings *)

Module JsString.

(** Code units of a UTF-16 string. *)
Abbreviation jsstring := (list N).

(** A string literal of the source, written with Rocq's string notation. *)
Fixpoint lit (s : string) : jsstring :=
  match s with
  | EmptyString => []
  | String a s' => N_of_ascii a :: lit s'
  end.

(** [is_prefix p s]: does [s] start with [p]? ([String.prototype.startsWith]) *)
Fixpoint is_prefix (p s : jsstring) : bool :=
  match p, s with
  | [], _ => true
  | _ :: _, [] => false
  | a :: p', b :: s' => (a =? b) && is_prefix p' s'
  end.

(** [includes p s]: does [p] occur in [s]? ([String.prototype.includes]) *)
Fixpoint includes (p s : jsstring) : bool :=
  is_prefix p s ||
  match s with
  | [] => false
  | _ :: s' => includes p s'
  end.

(** [s.replace(p, r)] for a string pattern [p]: the first occurrence of [p]
    in [s], if any, is replaced by [r]; nothing else changes. The
    replacement strings of the source contain no [$] pattern. *)
Fixpoint replace (p r s : jsstring) : jsstring :=
  if is_prefix p s then r ++ drop (length p) s
  else match s with
       | [] => []
       | c :: s' => c :: replace p r s'
       end.

(** [s.split(sep)] for a separator of one code unit: the pieces between the
    occurrences of [sep], in order; the empty string gives one empty piece. *)
Fixpoint split (sep : N) (s : jsstring) : list jsstring :=
  match s with
  | [] => [[]]
  | c :: s' =>
      if c =? sep then [] :: split sep s'
      else match split sep s' with
           | [] => [[c]]
           | piece :: pieces => (c :: piece) :: pieces
           end
  end.

(** [pieces.join(sep)] *)
Fixpoint join (sep : jsstring) (pieces : list jsstring) : jsstring :=
  match pieces with
  | [] => []
  | [p] => p
  | p :: rest => p ++ sep ++ join sep rest
  end.

(** ASCII lower-casing of one code unit and of a string (the header names of
    the source are ASCII). *)
Definition lower_unit (c : N) : N :=
  if (65 <=? c) && (c <=? 90) then c + 32 else c.

Definition toLowerCase (s : jsstring) : jsstring := map lower_unit s.

End JsString.
Export JsString.

Notation "'js:' s" := (lit s) (at level 1, s at level 0, format "'js:' s").

(** The one-character separator of paths. *)
Definition slash : N := 47.

(** ** Values and completions *)

(** A number read by [JSON.parse] is kept as the exact decimal it was
    written as: [mantissa * 10 ^ exponent]. The Number the runtime builds is
    its binary64 rounding. *)
Record decimal := Decimal { mantissa : Z; exponent : Z }.

Inductive value :=
| VUndefined
| VNull
| VBool (b : bool)
| VNum (d : decimal)
| VStr (s : jsstring)
| VArr (items : list value)
| VObj (props : list (jsstring * value)).

(** What a call can throw. *)
Inductive exn :=
| TypeError
| SyntaxError
| ERR_HTTP_HEADERS_SENT
| ERR_INVALID_ARG_VALUE
| Thrown (v : value).

(** A call either returns or throws. *)
Inductive completion (A : Type) :=
| Return (a : A)
| Throw (e : exn).
Arguments Return {A} a.
Arguments Throw {A} e.

Definition bind {A B} (c : completion A) (k : A -> completion B) : completion B :=
  match c with
  | Return a => k a
  | Throw e => Throw e
  end.

Notation "'let!' x ':=' c 'in' k" := (bind c (fun x => k))
  (at level 10, x name, c at level 100, k at level 200).

(** [decimal_rounds_to_zero d]: the binary64 rounding of [d] is [0] or [-0].
    The smallest positive binary64 is 2^-1074; a value of magnitude at most
    2^-1075 rounds to zero (the tie goes to the even neighbour, zero). *)
Definition decimal_rounds_to_zero (d : decimal) : bool :=
  let m := Z.abs (mantissa d) in
  let e := exponent d in
  if (m =? 0)%Z then true
  else if (0 <=? e)%Z then false
  else (m * 2 ^ 1075 <=? 10 ^ (- e))%Z.

(** [ToBoolean]: the values a condition treats as false are [undefined],
    [null], [false], zero, and the empty string. *)
Definition truthy (v : value) : bool :=
  match v with
  | VUndefined | VNull => false
  | VBool b => b
  | VNum d => negb (decimal_rounds_to_zero d)
  | VStr s => negb (bool_decide (s = []))
  | VArr _ | VObj _ => true
  end.

(** [s === v] for a string [s]: true exactly when [v] is the same string. *)
Definition string_strict_eq (s : jsstring) (v : value) : bool :=
  match v with
  | VStr t => bool_decide (s = t)
  | _ => false
  end.

(** The last binding of [key] among the properties written in an object
    literal: a later duplicate overrides an earlier one. *)
Fixpoint lookup_prop (key : jsstring) (props : list (jsstring * value)) : option value :=
  match props with
  | [] => None
  | (k, v) :: rest =>
      match lookup_prop key rest with
      | Some v' => Some v'
      | None => if bool_decide (k = key) then Some v else None
      end
  end.

(** [v.pubkey]: property access throws on [undefined] and [null]; an object
    gives its own property or [undefined]; no prototype of the other values
    has a property of that name. *)
Definition get_pubkey (v : value) : completion value :=
  match v with
  | VUndefined | VNull => Throw TypeError
  | VObj props => Return (default VUndefined (lookup_prop (js:"pubkey") props))
  | _ => Return VUndefined
  end.

(** ** The pure functions of the source *)

(** [getContentType(ext)] *)
Definition getContentType (ext : jsstring) : jsstring :=
  if bool_decide (ext = js:".txt") then js:"text/plain"
  else if bool_decide (ext = js:".html") then js:"text/html"
  else if bool_decide (ext = js:".json") then js:"application/json"
  else js:"application/octet-stream".

(** [targetDir.split('/').filter(segment => segment !== '')] *)
Definition targetSegments (targetDir : jsstring) : list jsstring :=
  filter (fun segment => segment ≠ []) (split slash targetDir).

(** [isValidTargetDir(targetDir, nostr)]: an index past the end of an array
    reads [undefined], which is not a string. *)
Definition isValidTargetDir (targetDir : jsstring) (nostr : value) : bool :=
  let segs := targetSegments targetDir in
  bool_decide (length segs = 1%nat) &&
  match segs !! 0%nat with
  | Some seg => string_strict_eq seg nostr
  | None => false
  end.

(** ** The runtime: base64, UTF-8 and JSON *)

Module Base64.

(** The value of a base64 digit; the URL-safe digits [-] and [_] are
    accepted next to [+] and [/]. *)
Definition unbase64 (c : N) : option N :=
  if (65 <=? c) && (c <=? 90) then Some (c - 65)
  else if (97 <=? c) && (c <=? 122) then Some (c - 97 + 26)
  else if (48 <=? c) && (c <=? 57) then Some (c - 48 + 52)
  else if (c =? 43) || (c =? 45) then Some 62
  else if (c =? 47) || (c =? 95) then Some 63
  else None.

(** The digits of the input up to the first [=]: a code unit is cut to its
    low byte, a character that is no digit is skipped, [=] ends the data. *)
Fixpoint sextets (s : jsstring) : list N :=
  match s with
  | [] => []
  | c :: s' =>
      let c8 := c mod 256 in
      if c8 =? 61 then []
      else match unbase64 c8 with
           | Some v => v :: sextets s'
           | None => sextets s'
           end
  end.

(** Four digits give three bytes; a last group of three gives two bytes, of
    two gives one, and a single left-over digit gives none. *)
Fixpoint bytes_of_sextets (l : list N) : list N :=
  match l with
  | a :: b :: c :: d :: rest =>
      (a * 4 + b / 16) :: ((b mod 16) * 16 + c / 4) :: ((c mod 4) * 64 + d)
        :: bytes_of_sextets rest
  | [a; b; c] => [a * 4 + b / 16; (b mod 16) * 16 + c / 4]
  | [a; b] => [a * 4 + b / 16]
  | _ => []
  end.

(** [Buffer.from(s, 'base64')]: never throws. *)
Definition decode (s : jsstring) : list N := bytes_of_sextets (sextets s).

End Base64.

Module Utf8.

Inductive state :=
| Start
| Continue (remaining : nat) (cp lower upper : N).

(** A byte read in the start state: the code points to emit and the next
    state. A byte that cannot start a sequence gives U+FFFD. *)
Definition lead (b : N) : list N * state :=
  if b <=? 127 then ([b], Start)
  else if (194 <=? b) && (b <=? 223) then ([], Continue 1 (b - 192) 128 191)
  else if (224 <=? b) && (b <=? 239) then
    ([], Continue 2 (b - 224)
           (if b =? 224 then 160 else 128) (if b =? 237 then 159 else 191))
  else if (240 <=? b) && (b <=? 244) then
    ([], Continue 3 (b - 240)
           (if b =? 240 then 144 else 128) (if b =? 244 then 143 else 191))
  else ([65533], Start).

(** The decoder of [buf.toString('utf-8')]: each ill-formed part of the
    input is replaced by one U+FFFD and decoding goes on, so it never
    throws. *)
Fixpoint code_points (st : state) (bytes : list N) : list N :=
  match bytes with
  | [] => match st with Start => [] | Continue _ _ _ _ => [65533] end
  | b :: rest =>
      match st with
      | Start => let '(out, st') := lead b in out ++ code_points st' rest
      | Continue n cp lo hi =>
          if (lo <=? b) && (b <=? hi) then
            let cp' := cp * 64 + b mod 64 in
            match n with
            | S (S n') => code_points (Continue (S n') cp' 128 191) rest
            | _ => cp' :: code_points Start rest
            end
          else let '(out, st') := lead b in
               65533 :: out ++ code_points st' rest
      end
  end.

(** A code point as UTF-16: one unit, or a surrogate pair above U+FFFF. *)
Definition units (cp : N) : jsstring :=
  if cp <? 65536 then [cp]
  else [55296 + (cp - 65536) / 1024; 56320 + (cp - 65536) mod 1024].

Definition toString (bytes : list N) : jsstring :=
  concat (map units (code_points Start bytes)).

End Utf8.

Module JSON.

Inductive token :=
| TLBrace | TRBrace | TLBracket | TRBracket | TColon | TComma
| TString (s : jsstring)
| TNumber (d : decimal)
| TTrue | TFalse | TNull.

(** JSON white space: space, tab, line feed, carriage return. *)
Definition is_ws (c : N) : bool :=
  (c =? 32) || (c =? 9) || (c =? 10) || (c =? 13).

Definition is_digit (c : N) : bool := (48 <=? c) && (c <=? 57).

Definition hex_value (c : N) : option N :=
  if (48 <=? c) && (c <=? 57) then Some (c - 48)
  else if (97 <=? c) && (c <=? 102) then Some (c - 87)
  else if (65 <=? c) && (c <=? 70) then Some (c - 55)
  else None.

(** The characters a backslash may be followed by, [u] apart. *)
Definition escape_value (c : N) : option N :=
  if c =? 34 then Some 34          (* quotation mark *)
  else if c =? 92 then Some 92     (* backslash *)
  else if c =? 47 then Some 47     (* slash *)
  else if c =? 98 then Some 8      (* b: backspace *)
  else if c =? 102 then Some 12    (* f: form feed *)
  else if c =? 110 then Some 10    (* n: line feed *)
  else if c =? 114 then Some 13    (* r: carriage return *)
  else if c =? 116 then Some 9     (* t: tab *)
  else None.

Inductive string_state :=
| Plain
| Escaped
| Unicode (seen : nat) (acc : N).

(** The body of a string literal, read after its opening quote: the string
    it denotes and the number of code units read, closing quote included.
    A control character, an unknown escape or a missing closing quote is an
    error. *)
Fixpoint string_body (st : string_state) (s : jsstring) : option (jsstring * nat) :=
  match s with
  | [] => None
  | c :: s' =>
      match st with
      | Plain =>
          if c =? 34 then Some ([], 1%nat)
          else if c =? 92 then
            '(str, n) ← string_body Escaped s'; Some (str, S n)
          else if c <? 32 then None
          else '(str, n) ← string_body Plain s'; Some (c :: str, S n)
      | Escaped =>
          if c =? 117 then
            '(str, n) ← string_body (Unicode 0 0) s'; Some (str, S n)
          else
            e ← escape_value c;
            '(str, n) ← string_body Plain s'; Some (e :: str, S n)
      | Unicode seen acc =>
          h ← hex_value c;
          match seen with
          | 3%nat =>
              '(str, n) ← string_body Plain s'; Some ((acc * 16 + h) :: str, S n)
          | _ =>
              '(str, n) ← string_body (Unicode (S seen) (acc * 16 + h)) s';
              Some (str, S n)
          end
      end
  end.

(** The longest run of decimal digits at the head of [s], and the rest. *)
Fixpoint take_digits (s : jsstring) : list N * jsstring :=
  match s with
  | c :: s' =>
      if is_digit c then let '(ds, rest) := take_digits s' in (c - 48 :: ds, rest)
      else ([], s)
  | [] => ([], [])
  end.

Definition digits_value (ds : list N) : Z :=
  fold_left (fun acc d => (acc * 10 + Z.of_N d)%Z) ds 0%Z.

(** A number literal at the head of [s]: an optional minus sign; a zero, or
    digits starting with a non-zero one; optionally a point and at least one
    digit; optionally [e] or [E], an optional sign and at least one digit. *)
Definition number (s : jsstring) : option (decimal * nat) :=
  let '(neg, s1) := match s with
                    | 45 :: r => (true, r)
                    | _ => (false, s)
                    end in
  '(int, s2) ← match s1 with
               | 48 :: r => Some ([0], r)
               | c :: _ => if is_digit c then Some (take_digits s1) else None
               | [] => None
               end;
  '(frac, s3) ← match s2 with
                | 46 :: r =>
                    let '(ds, r') := take_digits r in
                    if bool_decide (ds = []) then None else Some (ds, r')
                | _ => Some ([], s2)
                end;
  '(exp, s4) ← match s3 with
               | c :: r =>
                   if (c =? 101) || (c =? 69) then
                     let '(eneg, r1) := match r with
                                        | 45 :: r' => (true, r')
                                        | 43 :: r' => (false, r')
                                        | _ => (false, r)
                                        end in
                     let '(ds, r2) := take_digits r1 in
                     if bool_decide (ds = []) then None
                     else Some ((if eneg then - digits_value ds
                                 else digits_value ds)%Z, r2)
                   else Some (0%Z, s3)
               | [] => Some (0%Z, s3)
               end;
  let m := digits_value (int ++ frac) in
  Some (Decimal (if neg then - m else m)%Z (exp - Z.of_nat (length frac))%Z,
        (length s - length s4)%nat).

(** The token at the head of [s], which starts with no white space, and its
    length. *)
Definition token_at (s : jsstring) : option (token * nat) :=
  match s with
  | [] => None
  | c :: s' =>
      if c =? 123 then Some (TLBrace, 1%nat)
      else if c =? 125 then Some (TRBrace, 1%nat)
      else if c =? 91 then Some (TLBracket, 1%nat)
      else if c =? 93 then Some (TRBracket, 1%nat)
      else if c =? 58 then Some (TColon, 1%nat)
      else if c =? 44 then Some (TComma, 1%nat)
      else if c =? 34 then
        '(str, n) ← string_body Plain s'; Some (TString str, S n)
      else if is_prefix js:"true" s then Some (TTrue, 4%nat)
      else if is_prefix js:"false" s then Some (TFalse, 5%nat)
      else if is_prefix js:"null" s then Some (TNull, 4%nat)
      else '(d, n) ← number s; Some (TNumber d, n)
  end.

(** The tokens of a text; [skip] counts the code units of the current token
    still to pass over. [None] when some character starts no token. *)
Fixpoint tokens (skip : nat) (s : jsstring) : option (list token) :=
  match s with
  | [] => Some []
  | c :: s' =>
      match skip with
      | S k => tokens k s'
      | O =>
          if is_ws c then tokens 0 s'
          else '(t, n) ← token_at s; ts ← tokens (pred n) s'; Some (t :: ts)
      end
  end.

(** A container being read: its members so far, in reverse, and for an
    object the key that waits for its value. *)
Inductive frame :=
| InArray (items : list value)
| InObject (props : list (jsstring * value)) (key : jsstring).

(** What the grammar allows next. *)
Inductive expect :=
| AValue                      (* at the start, after [:] and after [,] in an array *)
| AValueOrClose               (* after [[] *)
| AKeyOrClose (props : list (jsstring * value))   (* after [{] *)
| AKey (props : list (jsstring * value))          (* after [,] in an object *)
| AColon (props : list (jsstring * value)) (key : jsstring)
| ACommaOrClose               (* after a member *)
| AtEnd (v : value).          (* the text's value is complete *)

(** A complete value goes to the innermost open container, or is the
    value of the text. *)
Definition close_value (v : value) (stack : list frame) : list frame * expect :=
  match stack with
  | [] => ([], AtEnd v)
  | InArray items :: up => (InArray (v :: items) :: up, ACommaOrClose)
  | InObject props key :: up => (InObject ((key, v) :: props) key :: up, ACommaOrClose)
  end.

Definition scalar (t : token) : option value :=
  match t with
  | TString s => Some (VStr s)
  | TNumber d => Some (VNum d)
  | TTrue => Some (VBool true)
  | TFalse => Some (VBool false)
  | TNull => Some VNull
  | _ => None
  end.

(** A token where a value may start. *)
Definition start_value (t : token) (stack : list frame) : option (list frame * expect) :=
  match t with
  | TLBracket => Some (InArray [] :: stack, AValueOrClose)
  | TLBrace => Some (stack, AKeyOrClose [])
  | _ => v ← scalar t; Some (close_value v stack)
  end.

Definition step (t : token) (stack : list frame) (e : expect) : option (list frame * expect) :=
  match e with
  | AValue => start_value t stack
  | AValueOrClose =>
      match t, stack with
      | TRBracket, InArray items :: up => Some (close_value (VArr (rev items)) up)
      | _, _ => start_value t stack
      end
  | AKeyOrClose props =>
      match t with
      | TRBrace => Some (close_value (VObj (rev props)) stack)
      | TString k => Some (stack, AColon props k)
      | _ => None
      end
  | AKey props =>
      match t with
      | TString k => Some (stack, AColon props k)
      | _ => None
      end
  | AColon props k =>
      match t with
      | TColon => Some (InObject props k :: stack, AValue)
      | _ => None
      end
  | ACommaOrClose =>
      match t, stack with
      | TComma, InArray _ :: _ => Some (stack, AValue)
      | TRBracket, InArray items :: up => Some (close_value (VArr (rev items)) up)
      | TComma, InObject props _ :: up => Some (up, AKey props)
      | TRBrace, InObject props _ :: up => Some (close_value (VObj (rev props)) up)
      | _, _ => None
      end
  | AtEnd _ => None
  end.

Fixpoint run (ts : list token) (stack : list frame) (e : expect) : option value :=
  match ts with
  | [] => match e with AtEnd v => Some v | _ => None end
  | t :: ts' => '(stack', e') ← step t stack e; run ts' stack' e'
  end.

(** [JSON.parse(text)]: the value the text denotes, or a [SyntaxError]. *)
Definition parse (text : jsstring) : completion value :=
  match ts ← tokens 0 text; run ts [] AValue with
  | Some v => Return v
  | None => Throw SyntaxError
  end.

End JSON.

(** ** The response object *)

Inductive header_value :=
| One (v : jsstring)
| Many (vs : list jsstring).

Inductive payload :=
| Text (s : jsstring)
| Bytes (b : list N).

(** The part of [http.ServerResponse] the handlers use. [outHeaders] maps
    the lower-cased name of a header to the name as it was given and its
    value; [sentStatus] is the status written in the head of the response,
    once the head is written. *)
Record response := Response {
  statusCode : Z;
  outHeaders : gmap jsstring (jsstring * header_value);
  sentStatus : option Z;
  body : option payload;
  finished : bool
}.

(** A response nothing was done to: status 200, no header, nothing sent. *)
Definition fresh : response := Response 200 ∅ None None false.

(** [res.statusCode = code] *)
Definition set_statusCode (code : Z) (res : response) : response :=
  Response code (outHeaders res) (sentStatus res) (body res) (finished res).

Definition store_header (name : jsstring) (v : header_value) (res : response) : response :=
  Response (statusCode res) (<[toLowerCase name := (name, v)]> (outHeaders res))
           (sentStatus res) (body res) (finished res).

(** [res.setHeader(name, value)]: throws once the head is written. *)
Definition setHeader (name : jsstring) (v : header_value) (res : response)
  : completion response :=
  match sentStatus res with
  | Some _ => Throw ERR_HTTP_HEADERS_SENT
  | None => Return (store_header name v res)
  end.

(** [res.writeHead(code, headers)]: throws once the head is written;
    otherwise the headers given are added to those already set, the status
    code is set, and the head is written. *)
Definition writeHead (code : Z) (headers : list (jsstring * header_value))
    (res : response) : completion response :=
  match sentStatus res with
  | Some _ => Throw ERR_HTTP_HEADERS_SENT
  | None =>
      let res' := fold_left (fun r kv => store_header (fst kv) (snd kv) r) headers res in
      Return (Response code (outHeaders res') (Some code) (body res') (finished res'))
  end.

(** [res.end(data)]: writes the head with the current status code when it
    is not written yet, then the data, and finishes the response. On a
    finished response it does nothing. *)
Definition end_ (data : option payload) (res : response) : response :=
  if finished res then res
  else Response (statusCode res) (outHeaders res)
         (Some (default (statusCode res) (sentStatus res))) data true.

(** The header [name], as the client receives it. *)
Definition header (name : jsstring) (res : response) : option header_value :=
  snd <$> outHeaders res !! toLowerCase name.

(** The response went out with status [code]. *)
Definition responded (code : Z) (res : response) : Prop :=
  sentStatus res = Some code ∧ finished res = true.

(** [setCorsHeaders(res)] *)
Definition setCorsHeaders (res : response) : completion response :=
  let! res := setHeader js:"Access-Control-Allow-Origin" (One js:"*") res in
  let! res := setHeader js:"Access-Control-Allow-Methods" (One js:"GET, PUT, OPTIONS") res in
  setHeader js:"Access-Control-Allow-Headers" (One js:"Content-Type, Authorization") res.

(** [handleOptions(req, res)]; the request is not looked at. *)
Definition handleOptions (res : response) : completion response :=
  let corsOptions :=
    [ (js:"origin", One js:"https://example.com");
      (js:"methods", Many [js:"GET"; js:"PUT"]);
      (js:"allowedHeaders", Many [js:"Content-Type"]) ] in
  let! res := writeHead 204 corsOptions res in
  Return (end_ None res).

(** ** The collaborators *)

(** The [path] module, which the handlers receive as an argument. *)
Record path_module := PathModule {
  path_join : list jsstring -> jsstring;
  path_dirname : jsstring -> jsstring;
  path_extname : jsstring -> jsstring
}.

(** What the write stream of an upload emits. *)
Inductive stream_event :=
| Finish
| StreamError (code : jsstring)
| NoEvent.

(** The answers of the file system for the paths it accepts: the error
    [fs.mkdir] passes to its callback, if any; the event a write stream on a
    path emits once the request body is piped into it; and the bytes
    [fs.readFile] passes to its callback, or its error. A path it does not
    accept never gets that far, see [rejected_path]. *)
Record world := World {
  mkdir_error : jsstring -> option jsstring;
  stream_outcome : jsstring -> list N -> stream_event;
  readFile_result : jsstring -> jsstring + list N
}.

(** [fs.readFile], [fs.mkdir] and [fs.createWriteStream] validate their path
    when they are called: a string that holds the code unit 0 makes them
    throw [ERR_INVALID_ARG_VALUE] at once, before any callback or event. *)
Definition rejected_path (p : jsstring) : bool := bool_decide (0 ∈ p).

(** The calls a handler makes to the file system, in order. *)
Inductive fs_call :=
| Mkdir (dir : jsstring) (recursive : bool)
| CreateWriteStream (target : jsstring)
| Pipe (data : list N) (target : jsstring)
| ReadFile (target : jsstring).

(** A request, as far as the handlers read it: its body. *)
Record request := Request { reqBody : list N }.

(** What a handler leaves behind: the response and its file-system calls. *)
Record outcome := Outcome { res_of : response; calls_of : list fs_call }.

(** The scheme prefix of the authorization header, ['Nostr '] in the source. *)
Abbreviation scheme := (lit "Nostr ").

(** [v.replace(p, r)]: only a string has the method. *)
Definition method_replace (v : value) (p r : jsstring) : completion jsstring :=
  match v with
  | VStr s => Return (replace p r s)
  | _ => Throw TypeError
  end.

(** [headers.authorization]: an absent property reads [undefined]. *)
Definition authorization_of (headers : gmap jsstring value) : value :=
  default VUndefined (headers !! js:"authorization").

Section Handlers.

(** [verifySignature] of nostr-tools: a boolean, unless it throws. *)
Variable verifySignature : value -> completion bool.

(** [isValidAuthorizationHeader(authorization)] *)
Definition isValidAuthorizationHeader (authorization : value) : completion value :=
  let! base64String := method_replace authorization js:"Nostr " js:"" in
  let decodedString := Utf8.toString (Base64.decode base64String) in
  let! event := JSON.parse decodedString in
  let! isVerified := verifySignature event in
  if isVerified then get_pubkey event else Return VUndefined.

(** [res.statusCode = code] followed by [res.end(message)], the way every
    branch of the handlers answers. *)
Definition respond (code : Z) (message : payload) (res : response) : response :=
  end_ (Some message) (set_statusCode code res).

(** The text of the 401 answer; 34 is the quotation mark around [nostr]. *)
Definition unauthorized_message : jsstring :=
  js:"Unauthorized: " ++ [34] ++ js:"nostr" ++ [34]
    ++ js:" header must be a 32 character lowercase hex string".

(** [handlePut(req, res, path, headers, targetDir, rootDir, pathname, path)].
    The source names two parameters [path]; the later one, the eighth
    argument, is the one the body sees, and the third argument [_path] is
    never read. Nothing in the handler catches what a call throws: a throw of
    [fs.mkdir] leaves the handler, a throw of [fs.createWriteStream] ends the
    callback of [fs.mkdir]; either way nothing is answered, and both are a
    [Throw] here. *)
Definition handlePut (w : world) (req : request) (res : response) (_path : value)
    (headers : gmap jsstring value) (targetDir rootDir pathname : jsstring)
    (path : path_module) : completion outcome :=
  let! nostr := method_replace (authorization_of headers) js:"Nostr " js:"" in
  let! pubkey := isValidAuthorizationHeader (authorization_of headers) in
  if negb (truthy (VStr nostr)) || negb (truthy pubkey) then
    Return (Outcome (respond 401 (Text unauthorized_message) res) [])
  else if negb (string_strict_eq targetDir pubkey) then
    Return (Outcome (respond 403 (Text js:"Forbidden: wrong pubkey") res) [])
  else if negb (isValidTargetDir targetDir pubkey) then
    Return (Outcome
              (respond 403 (Text js:"Forbidden: Target directory structure is invalid") res)
              [])
  else
    let targetPath := path_join path [js:"."; rootDir; pathname] in
    let dir := path_dirname path targetPath in
    if rejected_path dir then Throw ERR_INVALID_ARG_VALUE
    else
      match mkdir_error w dir with
      | Some err =>
          Return (Outcome (respond 500 (Text js:"Error creating directory") res)
                          [Mkdir dir true])
      | None =>
          if rejected_path targetPath then Throw ERR_INVALID_ARG_VALUE
          else
            let calls := [Mkdir dir true; CreateWriteStream targetPath;
                          Pipe (reqBody req) targetPath] in
            match stream_outcome w targetPath (reqBody req) with
            | Finish =>
                Return (Outcome (respond 201 (Text js:"File created") res) calls)
            | StreamError err =>
                Return (Outcome (respond 500 (Text js:"Error writing file") res) calls)
            | NoEvent => Return (Outcome res calls)
            end
      end.

End Handlers.

(** [handleGet(req, res, path, pathname, rootDir)]; the request is not
    looked at. Nothing in the handler catches what a call throws: a throw of
    [fs.readFile] leaves the handler, a throw of [res.setHeader] ends the
    callback of [fs.readFile]; both are a [Throw] here. *)
Definition handleGet (w : world) (res : response) (path : path_module)
    (pathname rootDir : jsstring) : completion outcome :=
  let targetPath := path_join path [js:"."; rootDir; pathname] in
  if rejected_path targetPath then Throw ERR_INVALID_ARG_VALUE
  else
    match readFile_result w targetPath with
    | inl err =>
        Return (Outcome (respond 404 (Text js:"File not found") res)
                        [ReadFile targetPath])
    | inr data =>
        let contentType := getContentType (path_extname path targetPath) in
        let! res := setHeader js:"Content-Type" (One contentType) res in
        Return (Outcome (respond 200 (Bytes data) res) [ReadFile targetPath])
    end.

(** ** The POSIX [path] module *)

Module Posix.

(** The segments of a path with [.] and empty segments dropped and [..]
    resolved against the segment before it; [stack] holds the result so far,
    last segment first. *)
Fixpoint resolve (allowAboveRoot : bool) (stack : list jsstring)
    (segments : list jsstring) : list jsstring :=
  match segments with
  | [] => rev stack
  | seg :: rest =>
      if bool_decide (seg = []) || bool_decide (seg = js:".") then
        resolve allowAboveRoot stack rest
      else if bool_decide (seg = js:"..") then
        match stack with
        | top :: below =>
            if bool_decide (top = js:"..") then
              resolve allowAboveRoot
                (if allowAboveRoot then seg :: stack else stack) rest
            else resolve allowAboveRoot below rest
        | [] =>
            resolve allowAboveRoot (if allowAboveRoot then [seg] else []) rest
        end
      else resolve allowAboveRoot (seg :: stack) rest
  end.

Definition normalizeString (p : jsstring) (allowAboveRoot : bool) : jsstring :=
  JsString.join [slash] (resolve allowAboveRoot [] (split slash p)).

(** [path.normalize(p)] *)
Definition normalize (p : jsstring) : jsstring :=
  match p with
  | [] => js:"."
  | first :: _ =>
      let isAbsolute := first =? slash in
      let trailingSeparator := bool_decide (last p = Some slash) in
      let q := normalizeString p (negb isAbsolute) in
      match q with
      | [] =>
          if isAbsolute then [slash]
          else if trailingSeparator then js:"./" else js:"."
      | _ =>
          let q := if trailingSeparator then q ++ [slash] else q in
          if isAbsolute then slash :: q else q
      end
  end.

(** [path.join(...parts)] *)
Definition join (parts : list jsstring) : jsstring :=
  match JsString.join [slash] (filter (fun part => part ≠ []) parts) with
  | [] => js:"."
  | joined => normalize joined
  end.

(** The index of the slash that ends the directory part of the path whose
    code units from index [i] on are [s]: the last slash, the first code unit
    of the path apart, that some other character follows. *)
Fixpoint dirname_end (i : nat) (s : jsstring) : option nat :=
  match s with
  | [] => None
  | c :: s' =>
      match dirname_end (S i) s' with
      | Some e => Some e
      | None =>
          if (c =? slash) && negb (bool_decide (i = 0%nat))
             && negb (forallb (fun d => d =? slash) s')
          then Some i else None
      end
  end.

(** [path.dirname(p)] *)
Definition dirname (p : jsstring) : jsstring :=
  match p with
  | [] => js:"."
  | first :: _ =>
      let hasRoot := first =? slash in
      match dirname_end 0 p with
      | None => if hasRoot then [slash] else js:"."
      | Some e => if hasRoot && bool_decide (e = 1%nat) then js:"//" else take e p
      end
  end.

(** The state of the backwards scan of [path.extname]. *)
Record scan := Scan {
  startDot : Z; startPart : Z; endPart : Z;
  matchedSlash : bool; preDotState : Z; stopped : bool
}.

Definition scan_step (st : scan) (ic : Z * N) : scan :=
  let '(i, code) := ic in
  if stopped st then st
  else if code =? slash then
    if matchedSlash st then st
    else Scan (startDot st) (i + 1) (endPart st) (matchedSlash st) (preDotState st) true
  else
    let st := if (endPart st =? -1)%Z
              then Scan (startDot st) (startPart st) (i + 1) false (preDotState st) false
              else st in
    if code =? 46 then
      if (startDot st =? -1)%Z
      then Scan i (startPart st) (endPart st) (matchedSlash st) (preDotState st) false
      else if negb (preDotState st =? 1)%Z
      then Scan (startDot st) (startPart st) (endPart st) (matchedSlash st) 1 false
      else st
    else if negb (startDot st =? -1)%Z
    then Scan (startDot st) (startPart st) (endPart st) (matchedSlash st) (-1) false
    else st.

(** [path.extname(p)] *)
Definition extname (p : jsstring) : jsstring :=
  let indexed := zip (Z.of_nat <$> seq 0 (length p)) p in
  let st := fold_left scan_step (rev indexed) (Scan (-1) 0 (-1) true 0 false) in
  if ((startDot st =? -1) || (endPart st =? -1) || (preDotState st =? 0)
      || ((preDotState st =? 1) && (startDot st =? endPart st - 1)
          && (startDot st =? startPart st + 1)))%Z
  then []
  else drop (Z.to_nat (startDot st)) (take (Z.to_nat (endPart st)) p).

Definition path : path_module := PathModule join dirname extname.

End Posix.

(** The response has not gone out, not even its head. *)
Definition unsent (res : response) : Prop :=
  sentStatus res = None ∧ finished res = false.

(** A string of slashes only. *)
Definition slashes (s : jsstring) : Prop := Forall (λ c, c = slash) s.

(** The text the verifier decodes: the credential with the first occurrence
    of the scheme prefix deleted. *)
Definition payload_of (auth : jsstring) : jsstring := replace scheme [] auth.

(** A plain segment of a path: a name that is not empty, holds no slash and
    is neither [.] nor [..]. *)
Definition plain_segment (name : jsstring) : Prop :=
  name ≠ [] ∧ (slash ∉ name) ∧ name ≠ js:"." ∧ name ≠ js:"..".

(** The five ways the write path goes on once the verifier has returned. *)
Inductive put_branch (w : world) (req : request) (res : response)
    (targetDir rootDir pathname : jsstring) (path : path_module) (pubkey : value)
  : completion outcome → Prop :=
| Unauthenticated :
    truthy pubkey = false →
    put_branch w req res targetDir rootDir pathname path pubkey
      (Return (Outcome (respond 401 (Text unauthorized_message) res) []))
| WrongPubkey :
    truthy pubkey = true → VStr targetDir ≠ pubkey →
    put_branch w req res targetDir rootDir pathname path pubkey
      (Return (Outcome (respond 403 (Text js:"Forbidden: wrong pubkey") res) []))
| InvalidStructure :
    pubkey = VStr targetDir → targetDir ≠ [] → slash ∈ targetDir →
    put_branch w req res targetDir rootDir pathname path pubkey
      (Return (Outcome
                 (respond 403 (Text js:"Forbidden: Target directory structure is invalid")
                    res) []))
| Stored out rest :
    pubkey = VStr targetDir → targetDir ≠ [] → slash ∉ targetDir →
    rejected_path (path_dirname path (path_join path [js:"."; rootDir; pathname]))
      = false →
    (mkdir_error w (path_dirname path (path_join path [js:"."; rootDir; pathname]))
       = None →
     rejected_path (path_join path [js:"."; rootDir; pathname]) = false) →
    calls_of out
      = Mkdir (path_dirname path (path_join path [js:"."; rootDir; pathname])) true
          :: rest →
    res_of out = respond 500 (Text js:"Error creating directory") res
    ∨ res_of out = respond 201 (Text js:"File created") res
    ∨ res_of out = respond 500 (Text js:"Error writing file") res
    ∨ res_of out = res →
    put_branch w req res targetDir rootDir pathname path pubkey (Return out)
| Refused :
    pubkey = VStr targetDir → targetDir ≠ [] → slash ∉ targetDir →
    rejected_path (path_dirname path (path_join path [js:"."; rootDir; pathname]))
      = true
    ∨ (mkdir_error w (path_dirname path (path_join path [js:"."; rootDir; pathname]))
         = None
       ∧ rejected_path (path_join path [js:"."; rootDir; pathname]) = true) →
    put_branch w req res targetDir rootDir pathname path pubkey
      (Throw ERR_INVALID_ARG_VALUE).

(** ** Data for the concrete runs *)

Module Sample.

(** A stand-in for the signature primitive: it accepts an object whose
    [sig] property is the string [ok], refuses any other object, and throws
    on what is not an object. *)
Definition verifySignature (event : value) : completion bool :=
  match event with
  | VObj props =>
      Return (match lookup_prop js:"sig" props with
              | Some (VStr s) => bool_decide (s = js:"ok")
              | _ => false
              end)
  | _ => Throw TypeError
  end.

(** The base64 text of an assertion with [pubkey] abc123 and [sig] ok. *)
Definition assertion : jsstring := js:"eyJwdWJrZXkiOiJhYmMxMjMiLCJzaWciOiJvayJ9".

(** The base64 text of an assertion with [pubkey] abc123 and [sig] forged. *)
Definition forged : jsstring := js:"eyJwdWJrZXkiOiJhYmMxMjMiLCJzaWciOiJmb3JnZWQifQ==".

(** The base64 text of the same assertion written with a space after its
    comma, which ends in padding. *)
Definition padded : jsstring := js:"eyJwdWJrZXkiOiJhYmMxMjMiLCAic2lnIjoib2sifQ==".

(** The base64 text of the words [not json]. *)
Definition not_json : jsstring := js:"bm90IGpzb24=".

(** The base64 text of an assertion with [sig] ok and no [pubkey]. *)
Definition anonymous : jsstring := js:"eyJzaWciOiJvayJ9".

(** The base64 text of an assertion with [pubkey] a/b and [sig] ok. *)
Definition nested : jsstring := js:"eyJwdWJrZXkiOiJhL2IiLCJzaWciOiJvayJ9".

(** The headers of a request with the one header [authorization]. *)
Definition headers_with (credential : jsstring) : gmap jsstring value :=
  {[ js:"authorization" := VStr credential ]}.

(** A file system where every call succeeds and one file exists. *)
Definition fs_ok : world :=
  World (λ _, None) (λ _ _, Finish)
        (λ target, if bool_decide (target = js:"data/abc123/notes.json")
                   then inr [123; 125] else inl js:"ENOENT").

(** A file system that cannot create a directory. *)
Definition fs_no_mkdir : world :=
  World (λ _, Some js:"EACCES") (λ _ _, Finish) (λ _, inl js:"ENOENT").

(** A file system whose write streams fail. *)
Definition fs_no_write : world :=
  World (λ _, None) (λ _ _, StreamError js:"ENOSPC") (λ _, inl js:"ENOENT").

Definition upload : request := Request [104; 101; 108; 108; 111].

(** A response with the three CORS headers set and nothing sent. *)
Definition with_cors : response :=
  store_header js:"Access-Control-Allow-Headers" (One js:"Content-Type, Authorization")
    (store_header js:"Access-Control-Allow-Methods" (One js:"GET, PUT, OPTIONS")
       (store_header js:"Access-Control-Allow-Origin" (One js:"*") fresh)).

End Sample.

(** * Properties *)

(** ** Strings: prefixes, occurrences, [replace] and [split] *)

Section StringFacts.

Implicit Types (p r s x y : jsstring) (sep c : N).

Lemma is_prefix_app p s : is_prefix p (p ++ s) = true.
Proof.
  induction p as [|a p IH]; simpl; [done|].
  by rewrite N.eqb_refl, IH.
Qed.

Lemma is_prefix_spec p s : is_prefix p s = true ↔ ∃ t, s = p ++ t.
Proof.
  split.
  - revert s. induction p as [|a p IH]; intros [|b s] H; simpl in *; eauto; try done.
    apply andb_true_iff in H as [Hab Hp]. apply N.eqb_eq in Hab as ->.
    destruct (IH _ Hp) as [t ->]. by exists t.
  - intros [t ->]. apply is_prefix_app.
Qed.

Lemma includes_cons_false p c s :
  includes p (c :: s) = false → includes p s = false.
Proof. simpl. intros H. apply orb_false_iff in H as [_ H]. exact H. Qed.

Lemma includes_false_prefix p s : includes p s = false → is_prefix p s = false.
Proof. destruct s; simpl; intros H; by apply orb_false_iff in H as [? _]. Qed.

(** Nothing is replaced in a string the pattern does not occur in. *)
Lemma replace_absent p r s : includes p s = false → replace p r s = s.
Proof.
  induction s as [|c s IH]; intros H.
  - simpl in *. apply orb_false_iff in H as [-> _]. done.
  - pose proof (includes_false_prefix _ _ H) as Hp.
    cbn [replace]. rewrite Hp. f_equal. apply IH. by eapply includes_cons_false.
Qed.

Lemma replace_prefix p r s : replace p r (p ++ s) = r ++ s.
Proof.
  destruct (p ++ s) as [|c t] eqn:E; simpl.
  - destruct p; [|done]. simpl in E. subst. by rewrite drop_0.
  - rewrite <- E. rewrite is_prefix_app. by rewrite drop_app_length.
Qed.

(** No proper suffix of the scheme is a prefix of it, so an occurrence of
    the scheme cannot start inside a string free of it and end inside a
    scheme that follows. *)
Lemma scheme_no_overlap x y :
  x ≠ [] → includes scheme x = false → is_prefix scheme (x ++ scheme ++ y) = false.
Proof.
  intros Hne Hx. apply includes_false_prefix in Hx.
  destruct x as [|c0 [|c1 [|c2 [|c3 [|c4 [|c5 x]]]]]]; [done|..];
    cbn in Hx |- *;
    repeat match goal with
           | |- context [?a =? ?b] => destruct (a =? b); cbn; try done
           end.
Qed.

(** [replace] deletes the first occurrence of the scheme, wherever it is. *)
Lemma replace_first_scheme x y :
  includes scheme x = false → replace scheme [] (x ++ scheme ++ y) = x ++ y.
Proof.
  induction x as [|c x IH]; intros Hx.
  - apply (replace_prefix scheme [] y).
  - change ((c :: x) ++ scheme ++ y) with (c :: (x ++ scheme ++ y)).
    cbn [replace].
    change (c :: (x ++ scheme ++ y)) with ((c :: x) ++ scheme ++ y).
    rewrite scheme_no_overlap by done.
    simpl. f_equal. apply IH. by eapply includes_cons_false.
Qed.

Lemma split_nonempty sep s : split sep s ≠ [].
Proof.
  destruct s as [|c s]; simpl; [done|].
  destruct (c =? sep); [done|]. by destruct (split sep s).
Qed.

(** Splitting at a separator splits the pieces on its two sides. *)
Lemma split_app_sep sep x y :
  split sep (x ++ sep :: y) = split sep x ++ split sep y.
Proof.
  induction x as [|c x IH]; simpl.
  - by rewrite N.eqb_refl.
  - destruct (c =? sep); [by rewrite IH|].
    rewrite IH. pose proof (split_nonempty sep x).
    by destruct (split sep x).
Qed.

(** A string without a separator is its own single piece. *)
Lemma split_no_sep sep s : sep ∉ s → split sep s = [s].
Proof.
  induction s as [|c s IH]; intros H; simpl; [done|].
  apply not_elem_of_cons in H as [Hc Hs].
  destruct (N.eqb_spec c sep) as [->|_]; [done|].
  by rewrite IH.
Qed.

(** The first piece holds no separator, and when all later pieces are
    empty the string is the first piece followed by separators only. *)
Lemma split_head sep s h t :
  split sep s = h :: t → filter (λ piece, piece ≠ []) t = [] →
  (sep ∉ h) ∧ s = h ++ replicate (length t) sep.
Proof.
  revert h t. induction s as [|c s IH]; intros h t Hs Ht; simpl in Hs.
  - injection Hs as <- <-. split; [apply not_elem_of_nil|done].
  - destruct (N.eqb_spec c sep) as [->|Hc].
    + injection Hs as <- <-.
      destruct (split sep s) as [|h' t'] eqn:E; [by apply split_nonempty in E|].
      destruct h' as [|? ?]; [|by rewrite filter_cons_True in Ht].
      rewrite filter_cons_False in Ht by (intros Hn; by apply Hn).
      destruct (IH [] t' eq_refl Ht) as [_ ->].
      split; [apply not_elem_of_nil|done].
    + destruct (split sep s) as [|h' t'] eqn:E; [by apply split_nonempty in E|].
      injection Hs as <- <-.
      destruct (IH h' t' eq_refl Ht) as [Hh ->].
      split; [|done]. apply not_elem_of_cons. split; [congruence|done].
Qed.

End StringFacts.

(** ** The namespace authorizer *)

Section Authorizer.

Implicit Types (P I D a b : jsstring).

Lemma targetSegments_cons_slash P : targetSegments (slash :: P) = targetSegments P.
Proof.
  unfold targetSegments. simpl.
  by rewrite filter_cons_False by (intros Hn; by apply Hn).
Qed.

Lemma targetSegments_slashes a : slashes a → targetSegments a = [].
Proof.
  induction 1 as [|c a -> _ IH].
  - unfold targetSegments. simpl.
    by rewrite filter_cons_False by (intros Hn; by apply Hn).
  - by rewrite targetSegments_cons_slash.
Qed.

(** The paths with exactly one segment [I]: [I] itself, non-empty and free
    of slashes, with any number of slashes before and after it. *)
Lemma targetSegments_single P I :
  targetSegments P = [I] ↔
  I ≠ [] ∧ (slash ∉ I) ∧ ∃ a b, slashes a ∧ slashes b ∧ P = a ++ I ++ b.
Proof.
  split.
  - induction P as [|c P IH]; intros H.
    + unfold targetSegments in H. simpl in H.
      by rewrite filter_cons_False in H by (intros Hn; by apply Hn).
    + destruct (N.eqb_spec c slash) as [->|Hc].
      * rewrite targetSegments_cons_slash in H.
        destruct (IH H) as (HI & Hs & a & b & Ha & Hb & ->).
        split; [done|]. split; [done|].
        exists (slash :: a), b. split; [by constructor|done].
      * unfold targetSegments in H. simpl in H.
        apply N.eqb_neq in Hc. rewrite Hc in H.
        destruct (split slash P) as [|h t] eqn:E; [by apply split_nonempty in E|].
        rewrite filter_cons_True in H by done.
        injection H as <- Ht.
        destruct (split_head _ _ _ _ E Ht) as [Hh ->].
        split; [done|]. split.
        { apply not_elem_of_cons. split; [|done]. apply N.eqb_neq in Hc. congruence. }
        exists [], (replicate (length t) slash).
        split; [constructor|]. split; [|done].
        apply Forall_forall. intros x Hx. by apply elem_of_replicate in Hx as [-> _].
  - intros (HI & Hs & a & b & Ha & Hb & ->).
    induction Ha as [|c a -> _ IH]; simpl.
    + destruct Hb as [|c b -> Hb].
      * rewrite app_nil_r. unfold targetSegments.
        rewrite split_no_sep by done. by rewrite filter_cons_True.
      * unfold targetSegments. rewrite split_app_sep, filter_app.
        rewrite split_no_sep by done. rewrite filter_cons_True by done.
        fold (targetSegments b). by rewrite targetSegments_slashes.
    + by rewrite targetSegments_cons_slash.
Qed.

Lemma isValidTargetDir_true P I :
  isValidTargetDir P (VStr I) = true ↔ targetSegments P = [I].
Proof.
  unfold isValidTargetDir.
  destruct (targetSegments P) as [|seg [|seg' rest]]; simpl.
  - split; [done|discriminate].
  - rewrite bool_decide_eq_true. split; [by intros ->|congruence].
  - split; [done|discriminate].
Qed.

Lemma isValidTargetDir_other_length P (v : value) :
  length (targetSegments P) ≠ 1%nat → isValidTargetDir P v = false.
Proof.
  intros H. unfold isValidTargetDir.
  by rewrite bool_decide_eq_false_2.
Qed.

(** C1. The namespace authorizer returns true exactly when the path, split
    on slashes with the empty segments discarded, is the one segment [I];
    the empty path, a path without a segment and a path with two or more
    segments are refused whatever the identity, string or not. *)
Theorem isValidTargetDir_single_segment P I :
  (isValidTargetDir P (VStr I) = true ↔ targetSegments P = [I]) ∧
  (∀ v : value, isValidTargetDir [] v = false) ∧
  (∀ v : value, targetSegments P = [] → isValidTargetDir P v = false) ∧
  (∀ v : value, (2 ≤ length (targetSegments P))%nat → isValidTargetDir P v = false).
Proof.
  split; [apply isValidTargetDir_true|].
  split; [intros v; by apply isValidTargetDir_other_length|].
  split; intros v H; apply isValidTargetDir_other_length.
  - by rewrite H.
  - lia.
Qed.

(** The authorizer accepts a path for the identity [I] exactly when the
    path is [I], non-empty and without a slash, between runs of slashes. *)
Corollary isValidTargetDir_shape P I :
  isValidTargetDir P (VStr I) = true ↔
  I ≠ [] ∧ (slash ∉ I) ∧ ∃ a b, slashes a ∧ slashes b ∧ P = a ++ I ++ b.
Proof. rewrite isValidTargetDir_true. apply targetSegments_single. Qed.

(** C9, as the code has it. For a non-empty identity [P] without a slash,
    a target directory equal to [P] passes the authorizer, so the second
    check never refuses what the first one let through; and a target
    directory without a slash that passes the authorizer equals [P]. *)
Theorem equality_check_and_authorizer P D :
  P ≠ [] → slash ∉ P →
  (D = P → isValidTargetDir D (VStr P) = true) ∧
  (slash ∉ D → isValidTargetDir D (VStr P) = true → D = P).
Proof.
  intros HP Hs. split.
  - intros ->. apply isValidTargetDir_shape.
    split; [done|]. split; [done|].
    exists [], []. repeat split; try constructor. by rewrite app_nil_r.
  - intros HD H. apply isValidTargetDir_true in H.
    unfold targetSegments in H. rewrite split_no_sep in H by done.
    destruct D as [|c D].
    + by rewrite filter_cons_False in H by (intros Hn; by apply Hn).
    + rewrite filter_cons_True in H by done. congruence.
Qed.

End Authorizer.

(** ** The response object *)

Section ResponseFacts.

Implicit Types (res : response) (code : Z) (message : payload).

Lemma respond_responded code message res :
  unsent res → responded code (respond code message res).
Proof.
  intros [Hs Hf]. unfold responded, respond, end_, set_statusCode. simpl.
  rewrite Hf, Hs. simpl. done.
Qed.

Lemma respond_body code message res :
  unsent res → body (respond code message res) = Some message.
Proof.
  intros [Hs Hf]. unfold respond, end_, set_statusCode. simpl. by rewrite Hf.
Qed.

Lemma respond_header code message res name :
  header name (respond code message res) = header name res.
Proof.
  unfold header, respond, end_, set_statusCode. simpl. by destruct (finished res).
Qed.

Lemma responded_unique code code' res :
  responded code res → responded code' res → code = code'.
Proof. intros [H _] [H' _]. congruence. Qed.

End ResponseFacts.

(** ** The signed-event verifier and the write path *)

Section HandlerFacts.

Variable verifySignature : value → completion bool.

Implicit Types (auth : jsstring) (res : response) (headers : gmap jsstring value).

Lemma isValidAuthorizationHeader_string auth :
  isValidAuthorizationHeader verifySignature (VStr auth) =
  let! event := JSON.parse (Utf8.toString (Base64.decode (payload_of auth))) in
  let! isVerified := verifySignature event in
  if isVerified then get_pubkey event else Return VUndefined.
Proof. reflexivity. Qed.

(** The verifier returns only when the payload is not empty: the empty text
    is no JSON. *)
Lemma isValidAuthorizationHeader_payload auth v :
  isValidAuthorizationHeader verifySignature (VStr auth) = Return v →
  payload_of auth ≠ [].
Proof.
  rewrite isValidAuthorizationHeader_string. intros H E. by rewrite E in H.
Qed.

(** What the verifier returns once the payload parses and the signature
    primitive answers: the [pubkey] of the event, or [undefined]. *)
Lemma isValidAuthorizationHeader_verified auth event (isVerified : bool) :
  JSON.parse (Utf8.toString (Base64.decode (payload_of auth))) = Return event →
  verifySignature event = Return isVerified →
  isValidAuthorizationHeader verifySignature (VStr auth) =
  if isVerified then get_pubkey event else Return VUndefined.
Proof.
  intros Hp Hv. rewrite isValidAuthorizationHeader_string, Hp. cbn [bind].
  by rewrite Hv.
Qed.

(** The verifier throws what [JSON.parse] throws. *)
Lemma isValidAuthorizationHeader_parse_error auth e :
  JSON.parse (Utf8.toString (Base64.decode (payload_of auth))) = Throw e →
  isValidAuthorizationHeader verifySignature (VStr auth) = Throw e.
Proof. rewrite isValidAuthorizationHeader_string. by intros ->. Qed.

Lemma string_strict_eq_false (s : jsstring) (v : value) :
  VStr s ≠ v → string_strict_eq s v = false.
Proof.
  intros H. destruct v; simpl; try done.
  apply bool_decide_eq_false_2. congruence.
Qed.

Lemma string_strict_eq_true (s : jsstring) (v : value) :
  string_strict_eq s v = true ↔ v = VStr s.
Proof.
  destruct v; simpl; try (split; [done|discriminate]).
  rewrite bool_decide_eq_true. split; congruence.
Qed.

(** The write path up to its checks, for a request with a string
    [authorization] header the verifier returns on. *)
Lemma handlePut_checked w req res _path headers targetDir rootDir pathname path auth pubkey :
  headers !! js:"authorization" = Some (VStr auth) →
  isValidAuthorizationHeader verifySignature (VStr auth) = Return pubkey →
  handlePut verifySignature w req res _path headers targetDir rootDir pathname path =
  if negb (truthy pubkey) then
    Return (Outcome (respond 401 (Text unauthorized_message) res) [])
  else if negb (string_strict_eq targetDir pubkey) then
    Return (Outcome (respond 403 (Text js:"Forbidden: wrong pubkey") res) [])
  else if negb (isValidTargetDir targetDir pubkey) then
    Return (Outcome
              (respond 403 (Text js:"Forbidden: Target directory structure is invalid") res)
              [])
  else
    let targetPath := path_join path [js:"."; rootDir; pathname] in
    let dir := path_dirname path targetPath in
    if rejected_path dir then Throw ERR_INVALID_ARG_VALUE
    else
      match mkdir_error w dir with
      | Some err =>
          Return (Outcome (respond 500 (Text js:"Error creating directory") res)
                          [Mkdir dir true])
      | None =>
          if rejected_path targetPath then Throw ERR_INVALID_ARG_VALUE
          else
            let calls := [Mkdir dir true; CreateWriteStream targetPath;
                          Pipe (reqBody req) targetPath] in
            match stream_outcome w targetPath (reqBody req) with
            | Finish =>
                Return (Outcome (respond 201 (Text js:"File created") res) calls)
            | StreamError err =>
                Return (Outcome (respond 500 (Text js:"Error writing file") res) calls)
            | NoEvent => Return (Outcome res calls)
            end
      end.
Proof.
  intros Hh Hv. pose proof (isValidAuthorizationHeader_payload _ _ Hv) as Hne.
  unfold handlePut, authorization_of. rewrite Hh.
  cbn [from_option id method_replace bind].
  rewrite Hv. cbn [bind truthy].
  fold (payload_of auth). rewrite bool_decide_eq_false_2 by done.
  reflexivity.
Qed.

(** C2. A PUT whose authorization header decodes and parses to an assertion
    the signature primitive refuses is answered 401, not 403 and not 201,
    and touches no file. *)
Theorem put_invalid_signature_401
    w req res _path headers targetDir rootDir pathname path auth event :
  headers !! js:"authorization" = Some (VStr auth) →
  JSON.parse (Utf8.toString (Base64.decode (payload_of auth))) = Return event →
  verifySignature event = Return false →
  unsent res →
  ∃ out,
    handlePut verifySignature w req res _path headers targetDir rootDir pathname path
      = Return out
    ∧ responded 401 (res_of out)
    ∧ ¬ responded 403 (res_of out)
    ∧ ¬ responded 201 (res_of out)
    ∧ calls_of out = [].
Proof.
  intros Hh Hp Hv Hu.
  assert (isValidAuthorizationHeader verifySignature (VStr auth) = Return VUndefined)
    as Hid.
  { by rewrite (isValidAuthorizationHeader_verified _ _ _ Hp Hv). }
  rewrite (handlePut_checked _ _ _ _ _ _ _ _ _ _ _ Hh Hid). cbn [truthy negb].
  eexists. split; [reflexivity|]. cbn [res_of calls_of].
  pose proof (respond_responded 401 (Text unauthorized_message) res Hu) as H401.
  split; [done|].
  split; [intros H; by pose proof (responded_unique _ _ _ H401 H)|].
  split; [intros H; by pose proof (responded_unique _ _ _ H401 H)|done].
Qed.

(** C3. A PUT whose assertion authenticates the identity [A] (a truthy
    value, as every public key is) and whose target directory [B] is not [A]
    is answered 403 and touches no file. *)
Theorem put_wrong_namespace_403
    w req res _path headers rootDir pathname path auth (A : value) (B : jsstring) :
  headers !! js:"authorization" = Some (VStr auth) →
  isValidAuthorizationHeader verifySignature (VStr auth) = Return A →
  truthy A = true →
  VStr B ≠ A →
  unsent res →
  ∃ out,
    handlePut verifySignature w req res _path headers B rootDir pathname path
      = Return out
    ∧ responded 403 (res_of out)
    ∧ body (res_of out) = Some (Text js:"Forbidden: wrong pubkey")
    ∧ calls_of out = [].
Proof.
  intros Hh Hid HA HB Hu.
  rewrite (handlePut_checked _ _ _ _ _ _ _ _ _ _ _ Hh Hid).
  rewrite HA, (string_strict_eq_false _ _ HB). cbn [negb].
  eexists. split; [reflexivity|]. cbn [res_of calls_of].
  split; [by apply respond_responded|].
  split; [by apply respond_body|done].
Qed.

(** C4, at the inputs where the code departs from it. Whatever the
    signature primitive, the verifier throws a [SyntaxError] to its caller
    when the credential is the bare scheme prefix, when it is empty, and when
    its payload is the base64 text of words that are no JSON. *)
Theorem isValidAuthorizationHeader_throws :
  isValidAuthorizationHeader verifySignature (VStr js:"Nostr ") = Throw SyntaxError
  ∧ isValidAuthorizationHeader verifySignature (VStr []) = Throw SyntaxError
  ∧ isValidAuthorizationHeader verifySignature (VStr (scheme ++ Sample.not_json))
    = Throw SyntaxError.
Proof.
  repeat split; apply isValidAuthorizationHeader_parse_error; vm_compute; reflexivity.
Qed.

(** C5, at the input where the code departs from it. A PUT whose headers
    have no [authorization] entry makes the handler throw a [TypeError]: the
    header is read as [undefined] and [replace] is called on it before any
    check. *)
Theorem put_without_authorization_throws
    w req res _path headers targetDir rootDir pathname path :
  headers !! js:"authorization" = None →
  handlePut verifySignature w req res _path headers targetDir rootDir pathname path
    = Throw TypeError.
Proof.
  intros Hh. unfold handlePut, authorization_of. by rewrite Hh.
Qed.


(** C10. The verifier does not need the scheme prefix, nor need it come
    first. [replace] deletes the first occurrence of the prefix wherever it
    stands and nothing else, later occurrences included, and leaves a
    credential without the prefix as it is. So whenever the text [x ++ y],
    with no prefix in [x], decodes and parses to an event that the signature
    primitive accepts, the credential with the prefix put between [x] and [y]
    verifies to the [pubkey] of that event; and when [x ++ y] holds no prefix
    at all, this bare text, which does not start with the prefix, verifies to
    the same [pubkey]. *)
Theorem scheme_prefix_not_required (x y : jsstring) (event pubkey : value) :
  includes scheme x = false →
  JSON.parse (Utf8.toString (Base64.decode (x ++ y))) = Return event →
  verifySignature event = Return true →
  get_pubkey event = Return pubkey →
  payload_of (x ++ scheme ++ y) = x ++ y
  ∧ isValidAuthorizationHeader verifySignature (VStr (x ++ scheme ++ y)) = Return pubkey
  ∧ (includes scheme (x ++ y) = false →
     is_prefix scheme (x ++ y) = false
     ∧ payload_of (x ++ y) = x ++ y
     ∧ isValidAuthorizationHeader verifySignature (VStr (x ++ y)) = Return pubkey).
Proof.
  intros Hx Hparse Hv Hk.
  assert (payload_of (x ++ scheme ++ y) = x ++ y) as E2
    by by apply replace_first_scheme.
  split; [done|]. split.
  - rewrite (isValidAuthorizationHeader_verified _ event true); [done| |done].
    by rewrite E2.
  - intros Hfree.
    assert (payload_of (x ++ y) = x ++ y) as E1 by by apply replace_absent.
    split; [by apply includes_false_prefix|]. split; [done|].
    rewrite (isValidAuthorizationHeader_verified _ event true); [done| |done].
    by rewrite E1.
Qed.

End HandlerFacts.

(** ** The read path *)


(** ** The preflight path *)

Section Cors.

Implicit Types (res : response).


Lemma handleOptions_unsent res :
  unsent res →
  handleOptions res =
  Return (Response 204
            (<[js:"allowedheaders" := (js:"allowedHeaders", Many [js:"Content-Type"])]>
               (<[js:"methods" := (js:"methods", Many [js:"GET"; js:"PUT"])]>
                  (<[js:"origin" := (js:"origin", One js:"https://example.com")]>
                     (outHeaders res))))
            (Some 204%Z) None true).
Proof.
  intros [Hs Hf]. unfold handleOptions, writeHead. rewrite Hs. cbn [bind].
  unfold end_. cbn [fold_left finished store_header fst snd outHeaders sentStatus
                    statusCode body].
  rewrite Hf. reflexivity.
Qed.



End Cors.

(** ** Concrete runs *)

Section Runs.

Import Sample.

(** The authorizer on a path with slashes around the identity, and on a
    nested path. *)
Lemma isValidTargetDir_single_segment_run :
  isValidTargetDir js:"/abc123/" (VStr js:"abc123") = true
  ∧ isValidTargetDir js:"abc123/notes.json" (VStr js:"abc123") = false.
Proof.
  split.
  - apply (proj1 (isValidTargetDir_single_segment js:"/abc123/" js:"abc123")).
    vm_compute. reflexivity.
  - apply (proj2 (proj2 (proj2
      (isValidTargetDir_single_segment js:"abc123/notes.json" js:"abc123")))).
    vm_compute. lia.
Defined.

(** A forged assertion for abc123, sent to abc123's own directory. *)
Lemma put_invalid_signature_401_run :
  ∃ out,
    handlePut verifySignature fs_ok upload fresh VUndefined
      (headers_with (scheme ++ forged)) js:"abc123" js:"data" js:"/abc123" Posix.path
      = Return out
    ∧ responded 401 (res_of out)
    ∧ ¬ responded 403 (res_of out)
    ∧ ¬ responded 201 (res_of out)
    ∧ calls_of out = [].
Proof.
  eapply (put_invalid_signature_401 verifySignature fs_ok upload fresh VUndefined
            (headers_with (scheme ++ forged)) js:"abc123" js:"data" js:"/abc123"
            Posix.path (scheme ++ forged)).
  - apply lookup_singleton_eq.
  - vm_compute. reflexivity.
  - vm_compute. reflexivity.
  - split; reflexivity.
Defined.

(** A valid assertion for abc123, sent to another directory. *)
Lemma put_wrong_namespace_403_run :
  ∃ out,
    handlePut verifySignature fs_ok upload fresh VUndefined
      (headers_with (scheme ++ assertion)) js:"def456" js:"data" js:"/def456" Posix.path
      = Return out
    ∧ responded 403 (res_of out)
    ∧ body (res_of out) = Some (Text js:"Forbidden: wrong pubkey")
    ∧ calls_of out = [].
Proof.
  apply (put_wrong_namespace_403 verifySignature fs_ok upload fresh VUndefined
           (headers_with (scheme ++ assertion)) js:"data" js:"/def456" Posix.path
           (scheme ++ assertion) (VStr js:"abc123") js:"def456").
  - apply lookup_singleton_eq.
  - vm_compute. reflexivity.
  - vm_compute. reflexivity.
  - vm_compute. discriminate.
  - split; reflexivity.
Defined.

(** A PUT without any header. *)
Lemma put_without_authorization_throws_run :
  handlePut verifySignature fs_ok upload fresh VUndefined ∅
    js:"abc123" js:"data" js:"/abc123" Posix.path
  = Throw TypeError.
Proof.
  apply (put_without_authorization_throws verifySignature fs_ok upload fresh VUndefined
           ∅ js:"abc123" js:"data" js:"/abc123" Posix.path).
  apply lookup_empty.
Defined.


(** The same upload on a file system that cannot create the directory, and
    on one whose write stream fails. *)
Example put_mkdir_fails_run :
  handlePut verifySignature fs_no_mkdir upload fresh VUndefined
    (headers_with (scheme ++ assertion)) js:"abc123" js:"data" js:"/abc123" Posix.path
  = Return (Outcome (respond 500 (Text js:"Error creating directory") fresh)
                    [Mkdir js:"data" true]).
Proof.
  rewrite (handlePut_checked verifySignature _ _ _ _ _ _ _ _ _
             (scheme ++ assertion) (VStr js:"abc123"));
    [|apply lookup_singleton_eq|vm_compute; reflexivity].
  reflexivity.
Qed.

Example put_write_fails_run :
  handlePut verifySignature fs_no_write upload fresh VUndefined
    (headers_with (scheme ++ assertion)) js:"abc123" js:"data" js:"/abc123" Posix.path
  = Return (Outcome (respond 500 (Text js:"Error writing file") fresh)
                    [Mkdir js:"data" true; CreateWriteStream js:"data/abc123";
                     Pipe (reqBody upload) js:"data/abc123"]).
Proof.
  rewrite (handlePut_checked verifySignature _ _ _ _ _ _ _ _ _
             (scheme ++ assertion) (VStr js:"abc123"));
    [|apply lookup_singleton_eq|vm_compute; reflexivity].
  reflexivity.
Qed.

(** The credential without its scheme prefix, and with the prefix in the
    middle of the base64 text. *)
Lemma scheme_prefix_not_required_run :
  payload_of (js:"eyJwdWJrZXki" ++ scheme ++ js:"OiJhYmMxMjMiLCJzaWciOiJvayJ9")
  = assertion
  ∧ isValidAuthorizationHeader verifySignature
      (VStr (js:"eyJwdWJrZXki" ++ scheme ++ js:"OiJhYmMxMjMiLCJzaWciOiJvayJ9"))
    = Return (VStr js:"abc123")
  ∧ is_prefix scheme assertion = false
  ∧ isValidAuthorizationHeader verifySignature (VStr assertion)
    = Return (VStr js:"abc123").
Proof.
  destruct (scheme_prefix_not_required verifySignature
              js:"eyJwdWJrZXki" js:"OiJhYmMxMjMiLCJzaWciOiJvayJ9"
              (VObj [(js:"pubkey", VStr js:"abc123"); (js:"sig", VStr js:"ok")])
              (VStr js:"abc123"))
    as (Hpayload & Hmid & Hbare).
  - vm_compute. reflexivity.
  - vm_compute. reflexivity.
  - vm_compute. reflexivity.
  - vm_compute. reflexivity.
  - destruct Hbare as (Hp & _ & Hb); [vm_compute; reflexivity|].
    split; [exact Hpayload|]. split; [exact Hmid|]. split; [exact Hp|exact Hb].
Defined.

(** A credential with the prefix at its start and once more at its end:
    only the first is deleted, and decoding stops at the padding. *)
Example later_prefix_stays_run :
  payload_of (scheme ++ padded ++ scheme) = padded ++ scheme
  ∧ isValidAuthorizationHeader verifySignature (VStr (scheme ++ padded ++ scheme))
    = Return (VStr js:"abc123").
Proof. split; vm_compute; reflexivity. Qed.



(** The two checks of the write path on abc123's own directory. *)
Lemma equality_check_and_authorizer_run :
  isValidTargetDir js:"abc123" (VStr js:"abc123") = true.
Proof.
  apply (proj1 (equality_check_and_authorizer js:"abc123" js:"abc123"
                  ltac:(discriminate) ltac:(compute_done))).
  reflexivity.
Defined.




(** C9 as stated fails: the authorizer accepts the target directory [/abc]
    for the identity [abc], and the equality check refuses it. *)
Lemma equality_check_is_stricter :
  ¬ (∀ P D : jsstring,
       P ≠ [] → (D = P ↔ isValidTargetDir D (VStr P) = true)).
Proof.
  intros H.
  destruct (H js:"abc" js:"/abc" ltac:(discriminate)) as [_ Hback].
  specialize (Hback eq_refl). discriminate Hback.
Qed.

End Runs.

(** * Further properties of the handlers *)

(** ** The namespace authorizer *)

Section AuthorizerMore.

Implicit Types (P I a b x y : jsstring) (v : value).

(** The segments of a path are those before a slash followed by those
    after it. *)
Lemma targetSegments_app_slash x y :
  targetSegments (x ++ slash :: y) = targetSegments x ++ targetSegments y.
Proof. unfold targetSegments. by rewrite split_app_sep, filter_app. Qed.

Lemma targetSegments_app_slashes P b :
  slashes b → targetSegments (P ++ b) = targetSegments P.
Proof.
  induction 1 as [|c b -> Hb IH].
  - by rewrite app_nil_r.
  - rewrite targetSegments_app_slash, (targetSegments_slashes b) by done.
    by rewrite app_nil_r.
Qed.

Lemma targetSegments_slashes_app a P :
  slashes a → targetSegments (a ++ P) = targetSegments P.
Proof.
  induction 1 as [|c a -> _ IH]; [done|].
  simpl. by rewrite targetSegments_cons_slash.
Qed.

(** X1. Slashes before and after a target directory, in any number, do not
    change the verdict of the authorizer, whatever the second argument. *)
Theorem isValidTargetDir_ignores_outer_slashes a b P v :
  slashes a → slashes b →
  isValidTargetDir (a ++ P ++ b) v = isValidTargetDir P v.
Proof.
  intros Ha Hb. unfold isValidTargetDir.
  by rewrite targetSegments_slashes_app, targetSegments_app_slashes.
Qed.

(** X2. A slash inside a target directory may be doubled, or a doubled one
    made single, without a change of the verdict: the empty segment between
    two slashes is discarded. *)
Theorem isValidTargetDir_ignores_doubled_slash x y v :
  isValidTargetDir (x ++ slash :: slash :: y) v = isValidTargetDir (x ++ slash :: y) v.
Proof.
  unfold isValidTargetDir.
  by rewrite !targetSegments_app_slash, targetSegments_cons_slash.
Qed.

(** X3. The authorizer accepts only a string identity that is not empty and
    holds no slash, and only for a path that is this identity between two
    runs of slashes; it accepts every such pair. In particular it refuses
    [undefined], [null], numbers and every other value that is no string. *)
Theorem isValidTargetDir_accepts_iff P v :
  isValidTargetDir P v = true ↔
  ∃ I, v = VStr I ∧ I ≠ [] ∧ (slash ∉ I)
       ∧ ∃ a b, slashes a ∧ slashes b ∧ P = a ++ I ++ b.
Proof.
  split.
  - intros H.
    assert (∃ I, v = VStr I) as [I ->].
    { unfold isValidTargetDir in H. apply andb_true_iff in H as [_ H].
      destruct (targetSegments P !! 0%nat); [|done].
      destruct v; try done. by eexists. }
    exists I. split; [done|]. by apply isValidTargetDir_shape.
  - intros (I & -> & H). by apply isValidTargetDir_shape.
Qed.

End AuthorizerMore.

(** ** The signed-event verifier and the write path *)

Section WritePathMore.

Variable verifySignature : value → completion bool.

Implicit Types (auth targetDir : jsstring) (res : response)
  (headers : gmap jsstring value) (pubkey : value).

Lemma authorization_of_string headers auth :
  authorization_of headers = VStr auth ↔ headers !! js:"authorization" = Some (VStr auth).
Proof.
  unfold authorization_of.
  destruct (headers !! js:"authorization") as [v|]; simpl; split; congruence.
Qed.

(** A header that is no string: the first line of the handler throws. *)
Lemma handlePut_no_string w req res _path headers targetDir rootDir pathname path :
  (∀ auth, authorization_of headers ≠ VStr auth) →
  handlePut verifySignature w req res _path headers targetDir rootDir pathname path
    = Throw TypeError.
Proof.
  intros H. unfold handlePut.
  destruct (authorization_of headers) as [| | | |auth| |]; try done.
  by destruct (H auth).
Qed.

(** The handler has no handler of its own for what the verifier throws. *)
Lemma handlePut_verifier_throws
    w req res _path headers targetDir rootDir pathname path auth e :
  headers !! js:"authorization" = Some (VStr auth) →
  isValidAuthorizationHeader verifySignature (VStr auth) = Throw e →
  handlePut verifySignature w req res _path headers targetDir rootDir pathname path
    = Throw e.
Proof.
  intros Hh Hv. unfold handlePut, authorization_of. rewrite Hh.
  cbn [from_option id method_replace bind]. by rewrite Hv.
Qed.

(** The authorizer on a directory and the same string as identity. *)
Lemma isValidTargetDir_self (s : jsstring) :
  isValidTargetDir s (VStr s) = true ↔ s ≠ [] ∧ (slash ∉ s).
Proof.
  rewrite isValidTargetDir_shape. split.
  - intros (? & ? & _). done.
  - intros [? ?]. split; [done|]. split; [done|].
    exists [], []. repeat split; try constructor. by rewrite app_nil_r.
Qed.

Lemma truthy_string_nonempty (s : jsstring) : truthy (VStr s) = true ↔ s ≠ [].
Proof.
  simpl. rewrite negb_true_iff, bool_decide_eq_false. done.
Qed.

Lemma handlePut_branch
    w req res _path headers targetDir rootDir pathname path auth pubkey :
  headers !! js:"authorization" = Some (VStr auth) →
  isValidAuthorizationHeader verifySignature (VStr auth) = Return pubkey →
  put_branch w req res targetDir rootDir pathname path pubkey
    (handlePut verifySignature w req res _path headers targetDir rootDir pathname path).
Proof.
  intros Hh Hv. rewrite (handlePut_checked _ _ _ _ _ _ _ _ _ _ _ _ Hh Hv).
  destruct (truthy pubkey) eqn:Ht; cbn [negb]; [|by constructor].
  destruct (string_strict_eq targetDir pubkey) eqn:He; cbn [negb].
  2:{ constructor; [done|]. intros <-. simpl in He.
      by rewrite bool_decide_eq_true_2 in He. }
  apply string_strict_eq_true in He as ->.
  apply truthy_string_nonempty in Ht.
  destruct (isValidTargetDir targetDir (VStr targetDir)) eqn:Hv'; cbn [negb].
  2:{ constructor; [done|done|].
      destruct (decide (slash ∈ targetDir)) as [|Hn]; [done|].
      assert (isValidTargetDir targetDir (VStr targetDir) = true) as E
        by by apply isValidTargetDir_self.
      congruence. }
  apply isValidTargetDir_self in Hv' as [_ Hs]. cbv zeta.
  destruct (rejected_path (path_dirname path _)) eqn:Hd;
    [apply Refused; [done|done|done|by left]|].
  destruct (mkdir_error w _) as [err|] eqn:Hm.
  { eapply Stored; [done|done|done|done|congruence|reflexivity|by left]. }
  destruct (rejected_path (path_join path _)) eqn:Hp;
    [apply Refused; [done|done|done|by right]|].
  destruct (stream_outcome w _ _) as [|err|];
    (eapply Stored; [done|done|done|done|done|reflexivity|]); cbn [res_of]; auto.
Qed.

Lemma rejected_path_true (p : jsstring) : rejected_path p = true ↔ 0 ∈ p.
Proof. unfold rejected_path. apply bool_decide_eq_true. Qed.

Lemma rejected_path_false (p : jsstring) : rejected_path p = false ↔ 0 ∉ p.
Proof. unfold rejected_path. apply bool_decide_eq_false. Qed.

(** The write path once its three checks have passed. *)
Lemma handlePut_passed w req res _path headers targetDir rootDir pathname path auth :
  headers !! js:"authorization" = Some (VStr auth) →
  isValidAuthorizationHeader verifySignature (VStr auth) = Return (VStr targetDir) →
  targetDir ≠ [] → slash ∉ targetDir →
  handlePut verifySignature w req res _path headers targetDir rootDir pathname path =
  let targetPath := path_join path [js:"."; rootDir; pathname] in
  let dir := path_dirname path targetPath in
  if rejected_path dir then Throw ERR_INVALID_ARG_VALUE
  else
    match mkdir_error w dir with
    | Some err =>
        Return (Outcome (respond 500 (Text js:"Error creating directory") res)
                        [Mkdir dir true])
    | None =>
        if rejected_path targetPath then Throw ERR_INVALID_ARG_VALUE
        else
          let calls := [Mkdir dir true; CreateWriteStream targetPath;
                        Pipe (reqBody req) targetPath] in
          match stream_outcome w targetPath (reqBody req) with
          | Finish =>
              Return (Outcome (respond 201 (Text js:"File created") res) calls)
          | StreamError err =>
              Return (Outcome (respond 500 (Text js:"Error writing file") res) calls)
          | NoEvent => Return (Outcome res calls)
          end
    end.
Proof.
  intros Ha Ev Hne Hs.
  rewrite (handlePut_checked _ _ _ _ _ _ _ _ _ _ _ _ Ha Ev).
  assert (truthy (VStr targetDir) = true) as -> by by apply truthy_string_nonempty.
  assert (string_strict_eq targetDir (VStr targetDir) = true) as ->
    by by apply string_strict_eq_true.
  assert (isValidTargetDir targetDir (VStr targetDir) = true) as ->
    by by apply isValidTargetDir_self.
  reflexivity.
Qed.

(** The verifier returns in two ways only. *)
Lemma isValidAuthorizationHeader_inv auth v :
  isValidAuthorizationHeader verifySignature (VStr auth) = Return v →
  ∃ event,
    JSON.parse (Utf8.toString (Base64.decode (payload_of auth))) = Return event
    ∧ ((verifySignature event = Return true ∧ get_pubkey event = Return v)
       ∨ (verifySignature event = Return false ∧ v = VUndefined)).
Proof.
  rewrite isValidAuthorizationHeader_string.
  destruct (JSON.parse _) as [event|]; [|done]. cbn [bind].
  destruct (verifySignature event) as [[|]|] eqn:E; [| |done]; cbn [bind]; intros H;
    exists event; (split; [done|]); [left|right]; split; congruence.
Qed.

(** A handler that returns has read a string [authorization] header on
    which the verifier returned. *)
Lemma handlePut_returns_inv
    w req res _path headers targetDir rootDir pathname path out :
  handlePut verifySignature w req res _path headers targetDir rootDir pathname path
    = Return out →
  ∃ auth pubkey,
    headers !! js:"authorization" = Some (VStr auth)
    ∧ isValidAuthorizationHeader verifySignature (VStr auth) = Return pubkey
    ∧ put_branch w req res targetDir rootDir pathname path pubkey (Return out).
Proof.
  intros H.
  destruct (authorization_of headers) as [| | | |auth| |] eqn:Ea;
    try (rewrite handlePut_no_string in H by (intros ?; congruence); discriminate).
  apply authorization_of_string in Ea.
  destruct (isValidAuthorizationHeader verifySignature (VStr auth)) as [pubkey|e] eqn:Ev.
  - exists auth, pubkey. split; [done|]. split; [done|].
    rewrite <- H. by apply handlePut_branch with auth.
  - by rewrite (handlePut_verifier_throws _ _ _ _ _ _ _ _ _ _ _ Ea Ev) in H.
Qed.

Lemma unsent_not_responded res code : unsent res → ¬ responded code res.
Proof. intros [_ Hf] [_ Hf']. congruence. Qed.

(** X4. The verifier returns a value in two cases only: the decoded payload
    parses to an event the signature primitive accepts, and the value is the
    [pubkey] of that event; or it parses to an event the primitive refuses,
    and the value is [undefined]. An argument that is no string, a payload
    that is no JSON and a primitive that throws all make it throw. *)
Theorem isValidAuthorizationHeader_returns_iff (authorization v : value) :
  isValidAuthorizationHeader verifySignature authorization = Return v ↔
  ∃ auth event,
    authorization = VStr auth
    ∧ JSON.parse (Utf8.toString (Base64.decode (payload_of auth))) = Return event
    ∧ ((verifySignature event = Return true ∧ get_pubkey event = Return v)
       ∨ (verifySignature event = Return false ∧ v = VUndefined)).
Proof.
  split.
  - intros H. destruct authorization as [| | | |auth| |]; try done.
    destruct (isValidAuthorizationHeader_inv _ _ H) as (event & Hp & Hv).
    by exists auth, event.
  - intros (auth & event & -> & Hp & [[Hv Hk]|[Hv ->]]);
      by rewrite (isValidAuthorizationHeader_verified _ _ _ _ Hp Hv).
Qed.


(** The status a branch answers with, if it answers. *)
Lemma put_branch_status w req res targetDir rootDir pathname path pubkey out code :
  unsent res →
  put_branch w req res targetDir rootDir pathname path pubkey (Return out) →
  responded code (res_of out) →
  (code = 401%Z ∧ truthy pubkey = false ∧ calls_of out = [])
  ∨ (code = 403%Z ∧ truthy pubkey = true ∧ calls_of out = []
     ∧ ((VStr targetDir ≠ pubkey
         ∧ body (res_of out) = Some (Text js:"Forbidden: wrong pubkey"))
        ∨ (pubkey = VStr targetDir ∧ slash ∈ targetDir
           ∧ body (res_of out)
             = Some (Text js:"Forbidden: Target directory structure is invalid"))))
  ∨ ((code = 500%Z ∨ code = 201%Z)
     ∧ pubkey = VStr targetDir ∧ targetDir ≠ [] ∧ (slash ∉ targetDir)
     ∧ calls_of out ≠ []).
Proof.
  intros Hu Hb Hr.
  inversion Hb as [Ht|Ht Hne|Hp Hne Hs|out' rest Hp Hne Hs Hd Hdt Hc Hres|];
    subst; cbn [res_of calls_of] in *.
  - left. split; [|done].
    by eapply responded_unique; [|apply respond_responded].
  - right. left.
    split; [by eapply responded_unique; [|apply respond_responded]|].
    split; [done|]. split; [done|]. left. split; [done|by apply respond_body].
  - right. left.
    split; [by eapply responded_unique; [|apply respond_responded]|].
    split; [by apply truthy_string_nonempty|]. split; [done|].
    right. split; [done|]. split; [done|by apply respond_body].
  - right. right.
    assert (code = 500%Z ∨ code = 201%Z) as Hcode.
    { destruct Hres as [E|[E|[E|E]]]; rewrite E in Hr.
      - left. by eapply responded_unique; [|apply respond_responded].
      - right. by eapply responded_unique; [|apply respond_responded].
      - left. by eapply responded_unique; [|apply respond_responded].
      - by apply unsent_not_responded in Hr. }
    split; [done|]. split; [done|]. split; [done|]. split; [done|].
    by rewrite Hc.
Qed.

(** X6. On a response not yet sent, the write path answers 401 exactly when
    the header is a string on which the verifier returns a value that counts
    as false: [undefined] for a refused signature or a missing [pubkey], or an
    empty or otherwise false [pubkey]. An empty or malformed credential is not
    among these cases: the verifier throws on it. *)
Theorem handlePut_401_iff w req res _path headers targetDir rootDir pathname path :
  unsent res →
  (∃ out,
     handlePut verifySignature w req res _path headers targetDir rootDir pathname path
       = Return out
     ∧ responded 401 (res_of out))
  ↔ ∃ auth pubkey,
      headers !! js:"authorization" = Some (VStr auth)
      ∧ isValidAuthorizationHeader verifySignature (VStr auth) = Return pubkey
      ∧ truthy pubkey = false.
Proof.
  intros Hu. split.
  - intros (out & H & Hr).
    destruct (handlePut_returns_inv _ _ _ _ _ _ _ _ _ _ H) as (auth & pubkey & Ha & Ev & Hb).
    exists auth, pubkey. split; [done|]. split; [done|].
    destruct (put_branch_status _ _ _ _ _ _ _ _ _ _ Hu Hb Hr)
      as [(_ & Ht & _)|[(? & _)|([?|?] & _)]]; done.
  - intros (auth & pubkey & Ha & Ev & Ht).
    rewrite (handlePut_checked _ _ _ _ _ _ _ _ _ _ _ _ Ha Ev), Ht. cbn [negb].
    eexists. split; [reflexivity|]. by apply respond_responded.
Qed.

(** X7. On a response not yet sent, the write path answers 403 exactly when
    the verifier returns a value that counts as true and either this value is
    not the target directory or the target directory holds a slash. *)
Theorem handlePut_403_iff w req res _path headers targetDir rootDir pathname path :
  unsent res →
  (∃ out,
     handlePut verifySignature w req res _path headers targetDir rootDir pathname path
       = Return out
     ∧ responded 403 (res_of out))
  ↔ ∃ auth pubkey,
      headers !! js:"authorization" = Some (VStr auth)
      ∧ isValidAuthorizationHeader verifySignature (VStr auth) = Return pubkey
      ∧ truthy pubkey = true
      ∧ (VStr targetDir ≠ pubkey ∨ slash ∈ targetDir).
Proof.
  intros Hu. split.
  - intros (out & H & Hr).
    destruct (handlePut_returns_inv _ _ _ _ _ _ _ _ _ _ H) as (auth & pubkey & Ha & Ev & Hb).
    exists auth, pubkey. split; [done|]. split; [done|].
    destruct (put_branch_status _ _ _ _ _ _ _ _ _ _ Hu Hb Hr)
      as [(? & _)|[(_ & Ht & _ & Hw)|([?|?] & _)]]; try done.
    split; [done|]. destruct Hw as [[? _]|(_ & ? & _)]; [by left|by right].
  - intros (auth & pubkey & Ha & Ev & Ht & Hw).
    pose proof (handlePut_branch w req res _path _ targetDir rootDir pathname path
                  _ _ Ha Ev) as Hb.
    inversion Hb as [Ht'|Ht' Hne E|Hp Hne Hs E|out rest Hp Hne Hs Hd Hdt Hc Hres E
                    |Hp Hne Hs Hr E].
    + congruence.
    + eexists. split; [reflexivity|]. by apply respond_responded.
    + eexists. split; [reflexivity|]. by apply respond_responded.
    + destruct Hw as [Hw|Hw]; [by destruct Hw|done].
    + destruct Hw as [Hw|Hw]; [by destruct Hw|done].
Qed.

(** X8. On a response not yet sent, the second 403 answer, with the text
    [Forbidden: Target directory structure is invalid], is given exactly when
    the verifier returns the target directory itself and the target directory
    holds a slash. *)
Theorem handlePut_invalid_structure_iff
    w req res _path headers targetDir rootDir pathname path :
  unsent res →
  (∃ out,
     handlePut verifySignature w req res _path headers targetDir rootDir pathname path
       = Return out
     ∧ responded 403 (res_of out)
     ∧ body (res_of out)
       = Some (Text js:"Forbidden: Target directory structure is invalid"))
  ↔ ∃ auth,
      headers !! js:"authorization" = Some (VStr auth)
      ∧ isValidAuthorizationHeader verifySignature (VStr auth) = Return (VStr targetDir)
      ∧ slash ∈ targetDir.
Proof.
  intros Hu. split.
  - intros (out & H & Hr & Hbody).
    destruct (handlePut_returns_inv _ _ _ _ _ _ _ _ _ _ H) as (auth & pubkey & Ha & Ev & Hb).
    exists auth. split; [done|].
    destruct (put_branch_status _ _ _ _ _ _ _ _ _ _ Hu Hb Hr)
      as [(? & _)|[(_ & _ & _ & Hw)|([?|?] & _)]]; try done.
    destruct Hw as [[_ Hbody']|(-> & Hs & _)]; [|done].
    rewrite Hbody in Hbody'. vm_compute in Hbody'. discriminate.
  - intros (auth & Ha & Ev & Hs).
    pose proof (handlePut_branch w req res _path _ targetDir rootDir pathname path
                  _ _ Ha Ev) as Hb.
    assert (targetDir ≠ []) as Hne by (intros ->; by apply elem_of_nil in Hs).
    inversion Hb as [Ht'|Ht' Hw E|Hp _ _ E|out rest Hp _ Hs' Hd Hdt Hc Hres E
                    |Hp _ Hs' Hr E].
    + by apply truthy_string_nonempty in Hne; congruence.
    + done.
    + eexists. split; [reflexivity|].
      split; [by apply respond_responded|by apply respond_body].
    + done.
    + done.
Qed.


(** X10. On a response not yet sent, a write path that answers does so with
    401, 403, 500 or 201 and a text body, and with none of 401 and 403 after
    a call to the file system. *)
Theorem handlePut_statuses w req res _path headers targetDir rootDir pathname path out code :
  unsent res →
  handlePut verifySignature w req res _path headers targetDir rootDir pathname path
    = Return out →
  responded code (res_of out) →
  (code = 401%Z ∨ code = 403%Z ∨ code = 500%Z ∨ code = 201%Z)
  ∧ (∃ text, body (res_of out) = Some (Text text))
  ∧ (calls_of out ≠ [] → code = 500%Z ∨ code = 201%Z).
Proof.
  intros Hu H Hr.
  destruct (handlePut_returns_inv _ _ _ _ _ _ _ _ _ _ H) as (auth & pubkey & Ha & Ev & Hb).
  split; [|split].
  - destruct (put_branch_status _ _ _ _ _ _ _ _ _ _ Hu Hb Hr)
      as [(? & _)|[(? & _)|([?|?] & _)]]; auto.
  - inversion Hb as [Ht E|Ht Hw E|Hp Hne Hs E|out' rest Hp Hne Hs Hd Hdt Hc' Hres E|];
      subst; cbn [res_of]; try (eexists; by apply respond_body).
    destruct Hres as [E|[E|[E|E]]]; rewrite E in *;
      try (eexists; by apply respond_body).
    by apply unsent_not_responded in Hr.
  - intros Hc.
    destruct (put_branch_status _ _ _ _ _ _ _ _ _ _ Hu Hb Hr)
      as [(_ & _ & ?)|[(_ & _ & ? & _)|(? & _)]]; done.
Qed.

(** X11. The write path leaves the headers of the response as they were:
    what [setCorsHeaders] set before the handler ran is still there when it
    has answered, in every branch. *)
Theorem handlePut_keeps_headers
    w req res _path headers targetDir rootDir pathname path out name :
  handlePut verifySignature w req res _path headers targetDir rootDir pathname path
    = Return out →
  header name (res_of out) = header name res.
Proof.
  intros H.
  destruct (handlePut_returns_inv _ _ _ _ _ _ _ _ _ _ H) as (auth & pubkey & Ha & Ev & Hb).
  inversion Hb as [Ht E|Ht Hw E|Hp Hne Hs E|out' rest Hp Hne Hs Hd Hdt Hc' Hres E|];
    subst; cbn [res_of]; try apply respond_header.
  destruct Hres as [E|[E|[E|E]]]; rewrite E; try apply respond_header. done.
Qed.

(** X21. The checks of the write path do not look at the path name: a
    request that reaches the file system with one path name reaches it with
    every other path name too, all else equal, whose joined path and its
    directory the file system accepts, and then asks for the directory of
    that other path. The file written is tied to the identity only as far as
    the caller ties [pathname] to [targetDir]. *)
Theorem handlePut_checks_ignore_pathname
    w req res _path headers targetDir rootDir pathname path out
    w' req' res' pathname' :
  handlePut verifySignature w req res _path headers targetDir rootDir pathname path
    = Return out →
  calls_of out ≠ [] →
  let targetPath' := path_join path [js:"."; rootDir; pathname'] in
  0 ∉ path_dirname path targetPath' →
  0 ∉ targetPath' →
  ∃ out' rest,
    handlePut verifySignature w' req' res' _path headers targetDir rootDir pathname' path
      = Return out'
    ∧ calls_of out' = Mkdir (path_dirname path targetPath') true :: rest.
Proof.
  intros H Hc targetPath' Hd Ht.
  destruct (handlePut_returns_inv _ _ _ _ _ _ _ _ _ _ H) as (auth & pubkey & Ha & Ev & Hb).
  inversion Hb as [Ht' E|Ht' Hw E|Hp Hne Hs E|out0 rest0 Hp Hne Hs Hd0 Ht0 Hc0 Hres E|];
    subst; try done.
  rewrite (handlePut_passed _ _ _ _ _ _ _ _ _ _ Ha Ev Hne Hs). cbv zeta.
  fold targetPath'.
  apply rejected_path_false in Hd, Ht. rewrite Hd.
  destruct (mkdir_error w' _) as [err|]; [by eexists _, _|].
  rewrite Ht. destruct (stream_outcome w' _ _); by eexists _, _.
Qed.

End WritePathMore.

(** ** The read path *)

Section ReadPathMore.

Variable verifySignature : value → completion bool.

Implicit Types (res : response) (path : path_module) (pathname rootDir : jsstring).

(** X12. The read path changes no header but [Content-Type], and when the
    read fails it changes none: what [setCorsHeaders] set before the handler
    ran is still there on a 200 and on a 404. *)
Theorem handleGet_keeps_headers w res path pathname rootDir out name :
  handleGet w res path pathname rootDir = Return out →
  (toLowerCase name ≠ js:"content-type" → header name (res_of out) = header name res)
  ∧ (∀ err, readFile_result w (path_join path [js:"."; rootDir; pathname]) = inl err →
            header name (res_of out) = header name res).
Proof.
  unfold handleGet. destruct (rejected_path _); [done|].
  destruct (readFile_result w _) as [err|data].
  - intros [= <-]. cbn [res_of]. split; intros; apply respond_header.
  - unfold setHeader. destruct (sentStatus res); [done|]. cbn [bind].
    intros [= <-]. cbn [res_of]. split; [|done].
    intros Hn. rewrite respond_header. unfold header, store_header. cbn [outHeaders].
    rewrite lookup_insert_ne; [done|]. intros E. apply Hn. rewrite <- E. reflexivity.
Qed.

(** X13. The read path throws in two cases only: the joined path holds
    the code unit 0 and [fs.readFile] refuses it at the call; or the path is
    accepted, the read succeeds and the head of the response is already
    written, so that setting the content type throws inside the callback of
    [fs.readFile]. A read that fails through the callback never makes it
    throw. *)
Theorem handleGet_throws_iff w res path pathname rootDir e :
  let targetPath := path_join path [js:"."; rootDir; pathname] in
  handleGet w res path pathname rootDir = Throw e ↔
  (0 ∈ targetPath ∧ e = ERR_INVALID_ARG_VALUE)
  ∨ ((0 ∉ targetPath)
     ∧ e = ERR_HTTP_HEADERS_SENT
     ∧ sentStatus res ≠ None
     ∧ ∃ data, readFile_result w targetPath = inr data).
Proof.
  intros targetPath. unfold handleGet. fold targetPath.
  destruct (rejected_path targetPath) eqn:Hr.
  - apply rejected_path_true in Hr. split.
    + intros [= <-]. by left.
    + intros [[_ ->]|(Hn & _)]; [done|by destruct Hn].
  - apply rejected_path_false in Hr.
    destruct (readFile_result w targetPath) as [err|data].
    + split; [done|]. intros [[Hn _]|(_ & _ & _ & data & ?)]; [by destruct Hr|done].
    + unfold setHeader. destruct (sentStatus res) as [code|]; cbn [bind].
      * split.
        -- intros [= <-]. right. split; [done|]. split; [done|]. split; [done|].
           by exists data.
        -- intros [[Hn _]|(_ & -> & _)]; [by destruct Hr|done].
      * split; [done|]. intros [[Hn _]|(_ & _ & ? & _)]; [by destruct Hr|done].
Qed.

(** X14. A file the write path stores is the file the read path reads for
    the same root directory and path name: the path given to
    [fs.createWriteStream] by the one is the path given to [fs.readFile] by
    the other. *)
Theorem handleGet_reads_where_handlePut_writes
    w req res _path headers targetDir rootDir pathname path out target
    w' res' out' :
  handlePut verifySignature w req res _path headers targetDir rootDir pathname path
    = Return out →
  CreateWriteStream target ∈ calls_of out →
  handleGet w' res' path pathname rootDir = Return out' →
  calls_of out' = [ReadFile target].
Proof.
  intros H Hin Hget.
  destruct (handlePut_returns_inv _ _ _ _ _ _ _ _ _ _ _ H) as (auth & pubkey & Ha & Ev & _).
  rewrite (handlePut_checked _ _ _ _ _ _ _ _ _ _ _ _ Ha Ev) in H.
  assert (target = path_join path [js:"."; rootDir; pathname]) as ->.
  { cbv zeta in H.
    repeat match type of H with
           | (if ?b then _ else _) = _ => destruct b
           | match ?x with _ => _ end = _ => destruct x
           end;
      try discriminate H; injection H as <-; cbn [calls_of] in Hin;
      repeat (apply elem_of_cons in Hin as [Hin|Hin]; [try discriminate Hin|]);
      try (by apply elem_of_nil in Hin); injection Hin as ->; reflexivity. }
  revert Hget. unfold handleGet. destruct (rejected_path _); [done|].
  destruct (readFile_result w' _); [by intros [= <-]|].
  destruct (setHeader _ _ res'); [|done]. by intros [= <-].
Qed.

End ReadPathMore.

(** ** The CORS headers and the preflight path *)

Section CorsMore.

Implicit Types (res r : response).

Lemma setCorsHeaders_unsent res :
  sentStatus res = None →
  setCorsHeaders res =
  Return (store_header js:"Access-Control-Allow-Headers"
            (One js:"Content-Type, Authorization")
            (store_header js:"Access-Control-Allow-Methods" (One js:"GET, PUT, OPTIONS")
               (store_header js:"Access-Control-Allow-Origin" (One js:"*") res))).
Proof.
  intros Hs. unfold setCorsHeaders, setHeader. rewrite Hs.
  cbn [bind store_header sentStatus]. rewrite Hs.
  cbn [bind store_header sentStatus]. by rewrite Hs.
Qed.

Lemma setCorsHeaders_sent res code :
  sentStatus res = Some code → setCorsHeaders res = Throw ERR_HTTP_HEADERS_SENT.
Proof. intros Hs. unfold setCorsHeaders, setHeader. by rewrite Hs. Qed.

Lemma handleOptions_sent res code :
  sentStatus res = Some code → handleOptions res = Throw ERR_HTTP_HEADERS_SENT.
Proof. intros Hs. unfold handleOptions, writeHead. by rewrite Hs. Qed.

(** The preflight path leaves the head written, with status 204. *)
Lemma handleOptions_sentStatus res r :
  handleOptions res = Return r → sentStatus r = Some 204%Z.
Proof.
  unfold handleOptions, writeHead. destruct (sentStatus res); [done|].
  cbn [bind]. intros [= <-]. unfold end_. cbn [finished sentStatus].
  by destruct (finished _).
Qed.

(** X15. [setCorsHeaders] returns exactly when the head of the response is
    not written yet. It then sets its three headers and leaves every other
    header, the status code, the body and the state of the response as they
    were; once the head is written it throws. *)
Theorem setCorsHeaders_effect res :
  match sentStatus res with
  | Some _ => setCorsHeaders res = Throw ERR_HTTP_HEADERS_SENT
  | None =>
      ∃ r, setCorsHeaders res = Return r
           ∧ header js:"Access-Control-Allow-Origin" r = Some (One js:"*")
           ∧ header js:"Access-Control-Allow-Methods" r
             = Some (One js:"GET, PUT, OPTIONS")
           ∧ header js:"Access-Control-Allow-Headers" r
             = Some (One js:"Content-Type, Authorization")
           ∧ (∀ name, toLowerCase name ≠ js:"access-control-allow-origin" →
                      toLowerCase name ≠ js:"access-control-allow-methods" →
                      toLowerCase name ≠ js:"access-control-allow-headers" →
                      header name r = header name res)
           ∧ statusCode r = statusCode res
           ∧ sentStatus r = None
           ∧ body r = body res
           ∧ finished r = finished res
  end.
Proof.
  destruct (sentStatus res) as [code|] eqn:Hs; [by eapply setCorsHeaders_sent|].
  rewrite setCorsHeaders_unsent by done.
  eexists. split; [reflexivity|].
  unfold header, store_header. cbn [outHeaders statusCode sentStatus body finished].
  repeat split; try done.
  - rewrite lookup_insert_ne by (vm_compute; discriminate).
    rewrite lookup_insert_ne by (vm_compute; discriminate).
    by rewrite lookup_insert_eq.
  - rewrite lookup_insert_ne by (vm_compute; discriminate).
    by rewrite lookup_insert_eq.
  - by rewrite lookup_insert_eq.
  - intros name H1 H2 H3. rewrite !lookup_insert_ne; [done|..]; intros E.
    + apply H1. by rewrite <- E.
    + apply H2. by rewrite <- E.
    + apply H3. by rewrite <- E.
Qed.

(** Three insertions made twice are the three insertions made once. *)
Lemma insert3_twice {V} (m : gmap jsstring V) k1 v1 k2 v2 k3 v3 :
  <[k3:=v3]> (<[k2:=v2]> (<[k1:=v1]> (<[k3:=v3]> (<[k2:=v2]> (<[k1:=v1]> m)))))
  = <[k3:=v3]> (<[k2:=v2]> (<[k1:=v1]> m)).
Proof.
  apply map_eq. intros k. rewrite !lookup_insert.
  repeat case_decide; done.
Qed.

(** X16. [setCorsHeaders] is idempotent: applied to its own result it
    returns that result again. *)
Theorem setCorsHeaders_idempotent res r :
  setCorsHeaders res = Return r → setCorsHeaders r = Return r.
Proof.
  intros H. destruct (sentStatus res) as [code|] eqn:Hs.
  - by rewrite (setCorsHeaders_sent _ _ Hs) in H.
  - rewrite setCorsHeaders_unsent in H by done.
    match type of H with Return ?r0 = _ => assert (r = r0) as -> by congruence end.
    rewrite setCorsHeaders_unsent by done. f_equal.
    unfold store_header. cbn [outHeaders statusCode sentStatus body finished].
    f_equal. apply insert3_twice.
Qed.

(** X17. The preflight path answers once: on the response it has answered,
    a second call throws, and so does [setCorsHeaders], which therefore has to
    run before the handler and not after it. *)
Theorem handleOptions_answers_once res r :
  handleOptions res = Return r →
  handleOptions r = Throw ERR_HTTP_HEADERS_SENT
  ∧ setCorsHeaders r = Throw ERR_HTTP_HEADERS_SENT.
Proof.
  intros H. apply handleOptions_sentStatus in H.
  split; [by eapply handleOptions_sent|by eapply setCorsHeaders_sent].
Qed.

(** X18. On a response not yet sent the preflight path answers 204 without
    a body and with the headers [origin], [methods] and [allowedHeaders] of
    its options object, whatever was set under these names before; it sets no
    other header, so no [Access-Control-Allow-] header of its own. *)
Theorem handleOptions_effect res :
  unsent res →
  ∃ r, handleOptions res = Return r
       ∧ responded 204 r
       ∧ body r = None
       ∧ header js:"origin" r = Some (One js:"https://example.com")
       ∧ header js:"methods" r = Some (Many [js:"GET"; js:"PUT"])
       ∧ header js:"allowedHeaders" r = Some (Many [js:"Content-Type"])
       ∧ (∀ name, header name r ≠ header name res →
                  toLowerCase name = js:"origin"
                  ∨ toLowerCase name = js:"methods"
                  ∨ toLowerCase name = js:"allowedheaders").
Proof.
  intros Hu. rewrite (handleOptions_unsent _ Hu).
  eexists. split; [reflexivity|]. split; [done|]. split; [done|].
  unfold header. cbn [outHeaders].
  split; [|split; [|split]].
  - rewrite lookup_insert_ne by (vm_compute; discriminate).
    rewrite lookup_insert_ne by (vm_compute; discriminate).
    by rewrite lookup_insert_eq.
  - rewrite lookup_insert_ne by (vm_compute; discriminate).
    by rewrite lookup_insert_eq.
  - by rewrite lookup_insert_eq.
  - intros name Hne.
    destruct (decide (toLowerCase name = js:"origin")) as [|H1]; [by left|].
    destruct (decide (toLowerCase name = js:"methods")) as [|H2]; [by right; left|].
    destruct (decide (toLowerCase name = js:"allowedheaders")) as [|H3];
      [by right; right|].
    exfalso. apply Hne. by rewrite !lookup_insert_ne.
Qed.

End CorsMore.

(** ** The handlers with the POSIX path module *)

Section PosixMore.

Variable verifySignature : value → completion bool.

Implicit Types (rootDir name rest : jsstring).

Lemma last_not_slash (l name : jsstring) :
  name ≠ [] → slash ∉ name → last (l ++ name) ≠ Some slash.
Proof.
  intros Hne Hs. rewrite last_app.
  destruct (last name) as [y|] eqn:E.
  - apply last_Some_elem_of in E. congruence.
  - by apply last_None in E.
Qed.

Lemma split_dot_root rootDir rest :
  slash ∉ rootDir →
  split slash (46 :: slash :: rootDir ++ slash :: rest)
  = [46] :: rootDir :: split slash rest.
Proof.
  intros Hr.
  change (46 :: slash :: rootDir ++ slash :: rest)
    with ([46] ++ slash :: (rootDir ++ slash :: rest)).
  rewrite !split_app_sep, (split_no_sep slash rootDir) by done.
  reflexivity.
Qed.

Lemma join_dot_root rootDir pathname :
  rootDir ≠ [] → pathname ≠ [] →
  Posix.join [js:"."; rootDir; pathname]
  = Posix.normalize (46 :: slash :: rootDir ++ slash :: pathname).
Proof.
  intros Hr Hp. unfold Posix.join.
  rewrite !filter_cons_True by done. rewrite filter_nil.
  reflexivity.
Qed.

(** [path.join('.', rootDir, '/' + name)] for plain segments. *)
Lemma join_root_name rootDir name :
  plain_segment rootDir → plain_segment name →
  Posix.join [js:"."; rootDir; slash :: name] = rootDir ++ slash :: name.
Proof.
  intros (Hr1 & Hr2 & Hr3 & Hr4) (Hn1 & Hn2 & Hn3 & Hn4).
  rewrite join_dot_root by done.
  unfold Posix.normalize, Posix.normalizeString.
  rewrite split_dot_root by done.
  cbn [split]. rewrite N.eqb_refl, (split_no_sep slash name) by done.
  change (46 =? slash) with false. cbn [negb].
  rewrite bool_decide_eq_false_2.
  2:{ replace (46 :: slash :: rootDir ++ slash :: slash :: name)
        with ((46 :: slash :: rootDir ++ [slash; slash]) ++ name)
        by (simpl; by rewrite <- app_assoc).
      by apply last_not_slash. }
  cbn [Posix.resolve].
  repeat (case_bool_decide; try done; cbn [orb]).
  cbn [rev app JsString.join].
  destruct rootDir as [|c r]; [done|]. reflexivity.
Qed.

(** [path.join('.', rootDir, '/../' + name)] for plain segments. *)
Lemma join_root_up_name rootDir name :
  plain_segment rootDir → plain_segment name →
  Posix.join [js:"."; rootDir; js:"/../" ++ name] = name.
Proof.
  intros (Hr1 & Hr2 & Hr3 & Hr4) (Hn1 & Hn2 & Hn3 & Hn4).
  rewrite join_dot_root by done.
  unfold Posix.normalize, Posix.normalizeString.
  rewrite split_dot_root by done.
  change (js:"/../" ++ name) with (slash :: ([46; 46] ++ slash :: name)).
  cbn [split]. rewrite N.eqb_refl, split_app_sep, (split_no_sep slash name) by done.
  change (split slash [46; 46]) with [[46; 46]].
  change (46 =? slash) with false. cbn [negb].
  rewrite bool_decide_eq_false_2.
  2:{ replace (46 :: slash :: rootDir ++ slash :: slash :: [46; 46] ++ slash :: name)
        with ((46 :: slash :: rootDir ++ [slash; slash; 46; 46; slash]) ++ name)
        by (simpl; by rewrite <- app_assoc).
      by apply last_not_slash. }
  cbn [Posix.resolve split app].
  repeat (case_bool_decide; try done; cbn [orb]).
  cbn [rev app JsString.join].
  destruct name as [|c r]; [done|]. reflexivity.
Qed.

Lemma dirname_end_no_slash i (s : jsstring) : slash ∉ s → Posix.dirname_end i s = None.
Proof.
  revert i. induction s as [|c s IH]; intros i Hs; [done|].
  apply not_elem_of_cons in Hs as [Hc Hs]. cbn [Posix.dirname_end].
  rewrite IH by done. apply N.eqb_neq in Hc. rewrite N.eqb_sym in Hc. by rewrite Hc.
Qed.

Lemma dirname_end_root i rootDir name :
  slash ∉ rootDir → name ≠ [] → slash ∉ name → (i + length rootDir ≠ 0)%nat →
  Posix.dirname_end i (rootDir ++ slash :: name) = Some (i + length rootDir)%nat.
Proof.
  revert i. induction rootDir as [|c r IH]; intros i Hr Hn Hs Hi.
  - cbn [app Posix.dirname_end]. rewrite dirname_end_no_slash by done.
    rewrite N.eqb_refl. rewrite bool_decide_eq_false_2 by (simpl in Hi; lia).
    destruct name as [|d name]; [done|].
    apply not_elem_of_cons in Hs as [Hd _]. apply N.eqb_neq in Hd.
    rewrite N.eqb_sym in Hd. cbn [forallb]. rewrite Hd. cbn. f_equal. simpl. lia.
  - apply not_elem_of_cons in Hr as [_ Hr].
    cbn [app Posix.dirname_end]. rewrite (IH (S i)) by (try done; simpl; lia).
    f_equal. simpl. lia.
Qed.

(** [path.dirname(rootDir + '/' + name)] for plain segments. *)
Lemma dirname_root_name rootDir name :
  plain_segment rootDir → plain_segment name →
  Posix.dirname (rootDir ++ slash :: name) = rootDir.
Proof.
  intros (Hr1 & Hr2 & _) (Hn1 & Hn2 & _).
  unfold Posix.dirname.
  rewrite (dirname_end_root 0) by first [done|destruct rootDir; [done|simpl; lia]].
  destruct rootDir as [|c r]; [done|]. cbn [app].
  apply not_elem_of_cons in Hr2 as [Hc _]. apply N.eqb_neq in Hc.
  rewrite N.eqb_sym in Hc. rewrite Hc. cbn [andb].
  change (c :: r ++ slash :: name) with ((c :: r) ++ slash :: name).
  apply take_app_length.
Qed.

(** The read path on a response not yet sent, for a path the file system
    accepts. *)
Lemma handleGet_unsent w res path pathname rootDir :
  unsent res →
  0 ∉ path_join path [js:"."; rootDir; pathname] →
  handleGet w res path pathname rootDir =
  let targetPath := path_join path [js:"."; rootDir; pathname] in
  Return (Outcome
            match readFile_result w targetPath with
            | inl _ => respond 404 (Text js:"File not found") res
            | inr data =>
                respond 200 (Bytes data)
                  (store_header js:"Content-Type"
                     (One (getContentType (path_extname path targetPath))) res)
            end
            [ReadFile targetPath]).
Proof.
  intros [Hs Hf] Hp. unfold handleGet, setHeader. rewrite Hs. cbv zeta.
  apply rejected_path_false in Hp. rewrite Hp.
  by destruct (readFile_result w _).
Qed.

(** X19. With the POSIX path module the read path is not held inside the
    root directory: for a root directory and a file name that are plain
    segments, the name without a code unit 0, a GET of [/../name] reads the
    file [name] beside the root directory and answers with its bytes when the
    read succeeds. *)
Theorem handleGet_reads_outside_root w res rootDir name :
  plain_segment rootDir → plain_segment name → 0 ∉ name → unsent res →
  ∃ out,
    handleGet w res Posix.path (js:"/../" ++ name) rootDir = Return out
    ∧ calls_of out = [ReadFile name]
    ∧ match readFile_result w name with
      | inl _ => responded 404 (res_of out)
      | inr data => responded 200 (res_of out) ∧ body (res_of out) = Some (Bytes data)
      end.
Proof.
  intros Hr Hn H0 Hu.
  assert (path_join Posix.path [js:"."; rootDir; js:"/../" ++ name] = name) as E
    by by apply join_root_up_name.
  rewrite handleGet_unsent by (try done; by rewrite E). cbv zeta. rewrite E.
  eexists. split; [reflexivity|]. split; [done|]. cbn [res_of].
  destruct (readFile_result w name) as [err|data].
  - by apply respond_responded.
  - split; [by apply respond_responded|by apply respond_body].
Qed.

(** X20. With the POSIX path module, an upload to [/name] by the identity
    [name] on a root directory [rootDir], both plain segments without a code
    unit 0, asks for the directory [rootDir] itself and, once it is there,
    writes the file [rootDir/name]: the file lies directly in the root
    directory. *)
Theorem handlePut_posix_target w req res _path headers rootDir name auth :
  headers !! js:"authorization" = Some (VStr auth) →
  isValidAuthorizationHeader verifySignature (VStr auth) = Return (VStr name) →
  plain_segment rootDir → plain_segment name →
  0 ∉ rootDir → 0 ∉ name →
  ∃ out,
    handlePut verifySignature w req res _path headers name rootDir (slash :: name)
      Posix.path = Return out
    ∧ calls_of out
      = match mkdir_error w rootDir with
        | Some _ => [Mkdir rootDir true]
        | None => [Mkdir rootDir true;
                   CreateWriteStream (rootDir ++ slash :: name);
                   Pipe (reqBody req) (rootDir ++ slash :: name)]
        end.
Proof.
  intros Ha Ev Hr Hn Hr0 Hn0.
  rewrite (handlePut_passed _ _ _ _ _ _ _ _ _ _ _ Ha Ev);
    [|by destruct Hn|by destruct Hn as (_ & ? & _)].
  cbn [path_join path_dirname Posix.path]. cbv zeta.
  rewrite join_root_name, dirname_root_name by done.
  assert (rejected_path rootDir = false) as -> by by apply rejected_path_false.
  assert (rejected_path (rootDir ++ slash :: name) = false) as ->.
  { apply rejected_path_false. intros Hin.
    apply elem_of_app in Hin as [Hin|Hin]; [done|].
    apply elem_of_cons in Hin as [Hin|Hin]; [discriminate Hin|done]. }
  destruct (mkdir_error w rootDir) as [err|]; [by eexists|].
  destruct (stream_outcome w _ _); by eexists.
Qed.

End PosixMore.

(** ** Concrete runs of the further properties *)

Section MoreRuns.

Import Sample.

(** The authorizer on abc123 with two slashes before it and one after. *)
Lemma isValidTargetDir_ignores_outer_slashes_run :
  isValidTargetDir (js:"//" ++ js:"abc123" ++ js:"/") (VStr js:"abc123")
  = isValidTargetDir js:"abc123" (VStr js:"abc123").
Proof.
  apply (isValidTargetDir_ignores_outer_slashes js:"//" js:"/" js:"abc123"
           (VStr js:"abc123")); repeat constructor.
Defined.

(** An assertion the signature primitive accepts and that names no
    [pubkey]. *)
Lemma handlePut_401_iff_run :
  ∃ out,
    handlePut verifySignature fs_ok upload fresh VUndefined
      (headers_with (scheme ++ anonymous)) js:"abc123" js:"data" js:"/abc123" Posix.path
      = Return out
    ∧ responded 401 (res_of out).
Proof.
  apply (proj2 (handlePut_401_iff verifySignature fs_ok upload fresh VUndefined
                  (headers_with (scheme ++ anonymous)) js:"abc123" js:"data"
                  js:"/abc123" Posix.path (conj eq_refl eq_refl))).
  exists (scheme ++ anonymous), VUndefined.
  split; [apply lookup_singleton_eq|]. split; vm_compute; reflexivity.
Defined.

(** A valid assertion for abc123 sent to a nested directory of abc123. *)
Lemma handlePut_403_iff_run :
  ∃ out,
    handlePut verifySignature fs_ok upload fresh VUndefined
      (headers_with (scheme ++ assertion)) js:"abc123/notes" js:"data"
      js:"/abc123/notes" Posix.path
      = Return out
    ∧ responded 403 (res_of out).
Proof.
  apply (proj2 (handlePut_403_iff verifySignature fs_ok upload fresh VUndefined
                  (headers_with (scheme ++ assertion)) js:"abc123/notes" js:"data"
                  js:"/abc123/notes" Posix.path (conj eq_refl eq_refl))).
  exists (scheme ++ assertion), (VStr js:"abc123").
  split; [apply lookup_singleton_eq|].
  split; [vm_compute; reflexivity|]. split; [vm_compute; reflexivity|].
  left. vm_compute. discriminate.
Defined.

(** A valid assertion whose [pubkey] holds a slash, sent to the directory
    of that name. *)
Lemma handlePut_invalid_structure_iff_run :
  ∃ out,
    handlePut verifySignature fs_ok upload fresh VUndefined
      (headers_with (scheme ++ nested)) js:"a/b" js:"data" js:"/a/b" Posix.path
      = Return out
    ∧ responded 403 (res_of out)
    ∧ body (res_of out)
      = Some (Text js:"Forbidden: Target directory structure is invalid").
Proof.
  apply (proj2 (handlePut_invalid_structure_iff verifySignature fs_ok upload fresh
                  VUndefined (headers_with (scheme ++ nested)) js:"a/b" js:"data"
                  js:"/a/b" Posix.path (conj eq_refl eq_refl))).
  exists (scheme ++ nested).
  split; [apply lookup_singleton_eq|].
  split; [vm_compute; reflexivity|]. compute_done.
Defined.

(** The statuses of the write path, at a stored upload. *)
Lemma handlePut_statuses_run :
  (201 = 401 ∨ 201 = 403 ∨ 201 = 500 ∨ 201 = 201)%Z
  ∧ (∃ text, body (respond 201 (Text js:"File created") fresh) = Some (Text text))
  ∧ (([Mkdir js:"data" true; CreateWriteStream js:"data/abc123";
       Pipe (reqBody upload) js:"data/abc123"] : list fs_call) ≠ [] →
     (201 = 500 ∨ 201 = 201)%Z).
Proof.
  apply (handlePut_statuses verifySignature fs_ok upload fresh VUndefined
           (headers_with (scheme ++ assertion)) js:"abc123" js:"data" js:"/abc123"
           Posix.path
           (Outcome (respond 201 (Text js:"File created") fresh)
              [Mkdir js:"data" true; CreateWriteStream js:"data/abc123";
               Pipe (reqBody upload) js:"data/abc123"])
           201%Z).
  - split; reflexivity.
  - rewrite (handlePut_checked verifySignature _ _ _ _ _ _ _ _ _
               (scheme ++ assertion) (VStr js:"abc123"));
      [|apply lookup_singleton_eq|vm_compute; reflexivity].
    reflexivity.
  - split; reflexivity.
Defined.

(** A refused upload on a response with the CORS headers set. *)
Lemma handlePut_keeps_headers_run :
  header js:"Access-Control-Allow-Origin"
    (respond 403 (Text js:"Forbidden: wrong pubkey") with_cors)
  = header js:"Access-Control-Allow-Origin" with_cors.
Proof.
  apply (handlePut_keeps_headers verifySignature fs_ok upload with_cors VUndefined
           (headers_with (scheme ++ assertion)) js:"def456" js:"data" js:"/def456"
           Posix.path
           (Outcome (respond 403 (Text js:"Forbidden: wrong pubkey") with_cors) [])
           js:"Access-Control-Allow-Origin").
  rewrite (handlePut_checked verifySignature _ _ _ _ _ _ _ _ _
             (scheme ++ assertion) (VStr js:"abc123"));
    [|apply lookup_singleton_eq|vm_compute; reflexivity].
  reflexivity.
Defined.

(** A GET of a missing file on a response with the CORS headers set. *)
Lemma handleGet_keeps_headers_run :
  header js:"Access-Control-Allow-Methods"
    (respond 404 (Text js:"File not found") with_cors)
  = header js:"Access-Control-Allow-Methods" with_cors.
Proof.
  apply (handleGet_keeps_headers fs_ok with_cors Posix.path js:"/missing" js:"data"
           (Outcome (respond 404 (Text js:"File not found") with_cors)
              [ReadFile js:"data/missing"])
           js:"Access-Control-Allow-Methods").
  - reflexivity.
  - vm_compute. discriminate.
Defined.

(** An upload to /abc123 and a GET of /abc123. *)
Lemma handleGet_reads_where_handlePut_writes_run :
  calls_of (Outcome (respond 404 (Text js:"File not found") fresh)
              [ReadFile js:"data/abc123"])
  = [ReadFile js:"data/abc123"].
Proof.
  apply (handleGet_reads_where_handlePut_writes verifySignature fs_ok upload fresh
           VUndefined (headers_with (scheme ++ assertion)) js:"abc123" js:"data"
           js:"/abc123" Posix.path
           (Outcome (respond 201 (Text js:"File created") fresh)
              [Mkdir js:"data" true; CreateWriteStream js:"data/abc123";
               Pipe (reqBody upload) js:"data/abc123"])
           js:"data/abc123" fs_ok fresh).
  - rewrite (handlePut_checked verifySignature _ _ _ _ _ _ _ _ _
               (scheme ++ assertion) (VStr js:"abc123"));
      [|apply lookup_singleton_eq|vm_compute; reflexivity].
    reflexivity.
  - cbn [calls_of]. apply elem_of_cons. right. apply elem_of_cons. by left.
  - reflexivity.
Defined.

(** [setCorsHeaders] on a new response, and again on its result. *)
Lemma setCorsHeaders_idempotent_run : setCorsHeaders with_cors = Return with_cors.
Proof. apply (setCorsHeaders_idempotent fresh with_cors). reflexivity. Defined.

(** The preflight path on a new response, and what then throws. *)
Lemma handleOptions_answers_once_run :
  ∃ r, handleOptions fresh = Return r
       ∧ handleOptions r = Throw ERR_HTTP_HEADERS_SENT
       ∧ setCorsHeaders r = Throw ERR_HTTP_HEADERS_SENT.
Proof.
  eexists. split; [reflexivity|].
  apply (handleOptions_answers_once fresh). reflexivity.
Defined.

(** The preflight path on a new response. *)
Lemma handleOptions_effect_run :
  ∃ r, handleOptions fresh = Return r
       ∧ responded 204 r
       ∧ body r = None
       ∧ header js:"origin" r = Some (One js:"https://example.com")
       ∧ header js:"methods" r = Some (Many [js:"GET"; js:"PUT"])
       ∧ header js:"allowedHeaders" r = Some (Many [js:"Content-Type"]).
Proof.
  destruct (handleOptions_effect fresh (conj eq_refl eq_refl))
    as (r & Hr & H204 & Hb & Ho & Hm & Ha & _).
  exists r. split; [exact Hr|]. split; [exact H204|]. split; [exact Hb|].
  split; [exact Ho|]. split; [exact Hm|exact Ha].
Defined.

(** A GET of /../secret on the root directory data. *)
Lemma handleGet_reads_outside_root_run :
  ∃ out,
    handleGet fs_ok fresh Posix.path js:"/../secret" js:"data" = Return out
    ∧ calls_of out = [ReadFile js:"secret"].
Proof.
  destruct (handleGet_reads_outside_root fs_ok fresh js:"data" js:"secret")
    as (out & Hout & Hcalls & _).
  - repeat split; try discriminate. compute_done.
  - repeat split; try discriminate. compute_done.
  - compute_done.
  - split; reflexivity.
  - exists out. split; assumption.
Defined.

(** An upload to /abc123 by abc123 on the root directory data. *)
Lemma handlePut_posix_target_run :
  ∃ out,
    handlePut verifySignature fs_ok upload fresh VUndefined
      (headers_with (scheme ++ assertion)) js:"abc123" js:"data" js:"/abc123" Posix.path
      = Return out
    ∧ calls_of out = [Mkdir js:"data" true; CreateWriteStream js:"data/abc123";
                      Pipe (reqBody upload) js:"data/abc123"].
Proof.
  apply (handlePut_posix_target verifySignature fs_ok upload fresh VUndefined
           (headers_with (scheme ++ assertion)) js:"data" js:"abc123"
           (scheme ++ assertion)).
  - apply lookup_singleton_eq.
  - vm_compute. reflexivity.
  - repeat split; try discriminate. compute_done.
  - repeat split; try discriminate. compute_done.
  - compute_done.
  - compute_done.
Defined.

(** The stored upload of abc123, and the same request for another path. *)
Lemma handlePut_checks_ignore_pathname_run :
  ∃ out' rest,
    handlePut verifySignature fs_ok upload fresh VUndefined
      (headers_with (scheme ++ assertion)) js:"abc123" js:"data" js:"/def456/notes"
      Posix.path
      = Return out'
    ∧ calls_of out' = Mkdir js:"data/def456" true :: rest.
Proof.
  apply (handlePut_checks_ignore_pathname verifySignature fs_ok upload fresh VUndefined
           (headers_with (scheme ++ assertion)) js:"abc123" js:"data" js:"/abc123"
           Posix.path
           (Outcome (respond 201 (Text js:"File created") fresh)
              [Mkdir js:"data" true; CreateWriteStream js:"data/abc123";
               Pipe (reqBody upload) js:"data/abc123"])
           fs_ok upload fresh js:"/def456/notes").
  - rewrite (handlePut_checked verifySignature _ _ _ _ _ _ _ _ _
               (scheme ++ assertion) (VStr js:"abc123"));
      [|apply lookup_singleton_eq|vm_compute; reflexivity].
    reflexivity.
  - discriminate.
  - compute_done.
  - compute_done.
Defined.

End MoreRuns.
